(** * Verification of the Oracle -> ClickHouse replication engine
    (src/oracle-sync/sync.py, src/oracle-sync/syncpl.py).

    The development embeds, in order:
    - [Py]: the Python values a source row can hold, and the builtins
      ([int], [float], [str], [bool], [pd.notna], [pd.to_datetime]) that
      [DataTypeConverter.TYPE_CONVERTERS] is built from;
    - [DataTypeConverter]: the tables, [_convert_value], [convert_record]
      and [convert_records];
    - [ClickHouse]: [ClickHouseConnector.execute], [insert_data] and
      [get_last_sync_id] over a destination table with injected query faults;
    - [Syncer]: [OracleConnector.execute_query] and
      [OracleToClickHouseSyncer.sync] as one replication pass;
    - [Syncpl]: [sync_oracle_to_clickhouse] of syncpl.py, its own pass;
    - [Main]: the startup retry loop and the scheduling loop of [main] in
      sync.py, and the loop of [main] in syncpl.py. *)

From Stdlib Require Import String Ascii ZArith List Bool Lia Sorted.
Import ListNotations.
Local Open Scope Z_scope.

Module Py.

(** Exception classes; a class stands for itself and its subclasses
    (pandas' [OutOfBoundsDatetime] and [DateParseError] are [ValueError]s).
    [DatabaseError] is any error raised by the database drivers. *)
Inductive exn : Type :=
| ValueError
| TypeError
| OverflowError
| IndexError
| DatabaseError.

(** The outcome of a Python computation: a value or a raised exception. *)
Inductive res (A : Type) : Type :=
| Ok (a : A)
| Raise (e : exn).
Arguments Ok {A} a.
Arguments Raise {A} e.

Definition res_bind {A B : Type} (m : res A) (f : A -> res B) : res B :=
  match m with
  | Ok a => f a
  | Raise e => Raise e
  end.

Notation "'let!' x := m 'in' k" := (res_bind m (fun x => k))
  (at level 200, x name, m at level 100, k at level 200).

(** [[f(x) for x in xs]]: the first exception aborts the comprehension. *)
Fixpoint map_res {A B : Type} (f : A -> res B) (xs : list A) : res (list B) :=
  match xs with
  | [] => Ok []
  | x :: r =>
      let! y := f x in
      let! ys := map_res f r in
      Ok (y :: ys)
  end.

(** Python floats, abstracted to decimals: [FFinite m e] is m * 10^e
    (binary rounding is not represented), plus the infinities and NaN. *)
Inductive pyfloat : Type :=
| FFinite (m e : Z)
| FInf (neg : bool)
| FNaN.

Record date : Type := mk_date { year : Z; month : Z; day : Z }.
Record datetime : Type :=
  mk_datetime { dt_date : date; hour : Z; minute : Z; second : Z }.

(** The values a record field holds: [None], [int], [float], [str], [bool],
    [datetime.date] and [datetime.datetime] / [pd.Timestamp] (at the
    resolution of seconds). *)
Inductive pyval : Type :=
| PNone
| PInt (z : Z)
| PFloat (f : pyfloat)
| PStr (s : string)
| PBool (b : bool)
| PDate (d : date)
| PDateTime (t : datetime).

(** ** Characters and numerals *)

Definition char_code (c : ascii) : Z := Z.of_nat (nat_of_ascii c).

(** [str.isspace] on ASCII: \t \n \v \f \r, \x1c-\x1f and the space. *)
Definition is_space (c : ascii) : bool :=
  let n := char_code c in ((9 <=? n) && (n <=? 13)) || ((28 <=? n) && (n <=? 32)).

Fixpoint drop_space (l : list ascii) : list ascii :=
  match l with
  | c :: r => if is_space c then drop_space r else l
  | [] => []
  end.

Definition strip (l : list ascii) : list ascii := rev (drop_space (rev (drop_space l))).

Definition digit_val (c : ascii) : option Z :=
  let n := char_code c in
  if (48 <=? n) && (n <=? 57) then Some (n - 48) else None.

Definition lower (c : ascii) : ascii :=
  let n := nat_of_ascii c in
  if ((65 <=? n) && (n <=? 90))%nat then ascii_of_nat (n + 32) else c.

(** Digits after the first one: a single [_] may separate two digits
    (PEP 515). Returns the value, the number of digits and the rest. *)
Fixpoint digits_aux (acc : Z) (n : nat) (s : list ascii) : Z * nat * list ascii :=
  match s with
  | c :: r =>
      match digit_val c with
      | Some d => digits_aux (acc * 10 + d) (S n) r
      | None =>
          if Ascii.eqb c "_"%char then
            match r with
            | c' :: r' =>
                match digit_val c' with
                | Some d => digits_aux (acc * 10 + d) (S n) r'
                | None => (acc, n, s)
                end
            | [] => (acc, n, s)
            end
          else (acc, n, s)
      end
  | [] => (acc, n, [])
  end.

Definition parse_uint (s : list ascii) : option (Z * nat * list ascii) :=
  match s with
  | c :: r =>
      match digit_val c with
      | Some d => Some (digits_aux d 1 r)
      | None => None
      end
  | [] => None
  end.

Definition parse_sign (l : list ascii) : Z * list ascii :=
  match l with
  | c :: r =>
      if Ascii.eqb c "-"%char then (-1, r)
      else if Ascii.eqb c "+"%char then (1, r)
      else (1, l)
  | [] => (1, l)
  end.

(** The decimal literal [int(s)] accepts. *)
Definition parse_int_literal (s : string) : option Z :=
  let '(sg, r) := parse_sign (strip (list_ascii_of_string s)) in
  match parse_uint r with
  | Some (v, _, []) => Some (sg * v)
  | _ => None
  end.

Definition starts_with_char (c : ascii) (l : list ascii) : option (list ascii) :=
  match l with
  | c' :: r => if Ascii.eqb (lower c') c then Some r else None
  | [] => None
  end.

(** The literal [float(s)] accepts: [inf], [infinity], [nan] in any case,
    or digits with an optional fraction and exponent. *)
Definition parse_float_literal (s : string) : option pyfloat :=
  let '(sg, r) := parse_sign (strip (list_ascii_of_string s)) in
  let w := string_of_list_ascii (map lower r) in
  if String.eqb w "inf" || String.eqb w "infinity" then Some (FInf (sg <? 0))
  else if String.eqb w "nan" then Some FNaN
  else
    let '(v1, n1, r1) :=
      match parse_uint r with Some p => p | None => (0, O, r) end in
    let '(v2, n2, r2) :=
      match r1 with
      | c :: r1' =>
          if Ascii.eqb c "."%char then
            match parse_uint r1' with Some p => p | None => (0, O, r1') end
          else (0, O, r1)
      | [] => (0, O, r1)
      end in
    if (n1 + n2 =? 0)%nat then None
    else
      let ex :=
        match starts_with_char "e"%char r2 with
        | None => Some (0, r2)
        | Some r3 =>
            let '(esg, r4) := parse_sign r3 in
            match parse_uint r4 with
            | Some (ev, _, r5) => Some (esg * ev, r5)
            | None => None
            end
        end in
      match ex with
      | Some (e, []) =>
          Some (FFinite (sg * (v1 * 10 ^ Z.of_nat n2 + v2)) (e - Z.of_nat n2))
      | _ => None
      end.

(** ** Printing *)

Fixpoint digits_rev (fuel : nat) (n : Z) : list ascii :=
  match fuel with
  | O => []
  | S f =>
      let c := ascii_of_nat (Z.to_nat (48 + n mod 10)) in
      if n <? 10 then [c] else c :: digits_rev f (n / 10)
  end.

(** Decimal digits of a non-negative integer (a number below 2^k has at
    most k decimal digits). *)
Definition dec_digits (n : Z) : list ascii := rev (digits_rev (S (Z.to_nat (Z.log2 n))) n).

Definition pad (w : nat) (l : list ascii) : list ascii :=
  repeat "0"%char (w - length l) ++ l.

Definition zeros (k : Z) : list ascii := repeat "0"%char (Z.to_nat k).

Definition int_repr (z : Z) : list ascii :=
  if z <? 0 then "-"%char :: dec_digits (- z) else dec_digits z.

Fixpoint normalize (fuel : nat) (m e : Z) : Z * Z :=
  match fuel with
  | O => (m, e)
  | S f => if (m mod 10 =? 0) && negb (m =? 0) then normalize f (m / 10) (e + 1) else (m, e)
  end.

(** [repr] of a float: positional notation when the decimal exponent lies
    in [-4, 16), scientific notation otherwise. *)
Definition float_repr (f : pyfloat) : list ascii :=
  match f with
  | FNaN => list_ascii_of_string "nan"
  | FInf false => list_ascii_of_string "inf"
  | FInf true => list_ascii_of_string "-inf"
  | FFinite m e =>
      if m =? 0 then list_ascii_of_string "0.0" else
      let '(m', e') := normalize (length (dec_digits (Z.abs m))) m e in
      let ds := dec_digits (Z.abs m') in
      let n := Z.of_nat (length ds) in
      let x := n - 1 + e' in
      let body :=
        if (-4 <=? x) && (x <? 16) then
          if 0 <=? e' then ds ++ zeros e' ++ list_ascii_of_string ".0"
          else if 0 <? n + e' then
            firstn (Z.to_nat (n + e')) ds ++ "."%char :: skipn (Z.to_nat (n + e')) ds
          else list_ascii_of_string "0." ++ zeros (- (n + e')) ++ ds
        else
          firstn 1 ds
          ++ (if 1 <? n then "."%char :: skipn 1 ds else [])
          ++ "e"%char :: (if x <? 0 then "-"%char else "+"%char)
          :: pad 2 (dec_digits (Z.abs x)) in
      if m' <? 0 then "-"%char :: body else body
  end.

Definition date_repr (d : date) : list ascii :=
  pad 4 (dec_digits (year d)) ++ "-"%char :: pad 2 (dec_digits (month d))
  ++ "-"%char :: pad 2 (dec_digits (day d)).

Definition datetime_repr (t : datetime) : list ascii :=
  date_repr (dt_date t) ++ " "%char :: pad 2 (dec_digits (hour t))
  ++ ":"%char :: pad 2 (dec_digits (minute t))
  ++ ":"%char :: pad 2 (dec_digits (second t)).

(** [str(x)]. *)
Definition py_str_of (v : pyval) : string :=
  match v with
  | PNone => "None"
  | PInt z => string_of_list_ascii (int_repr z)
  | PFloat f => string_of_list_ascii (float_repr f)
  | PStr s => s
  | PBool true => "True"
  | PBool false => "False"
  | PDate d => string_of_list_ascii (date_repr d)
  | PDateTime t => string_of_list_ascii (datetime_repr t)
  end.

(** [bool(x)]: Python truthiness. *)
Definition truthy (v : pyval) : bool :=
  match v with
  | PNone => false
  | PInt z => negb (z =? 0)
  | PFloat (FFinite m _) => negb (m =? 0)
  | PFloat _ => true
  | PStr s => negb (String.eqb s "")
  | PBool b => b
  | PDate _ | PDateTime _ => true
  end.

(** [pd.notna(x)] on scalars. *)
Definition notna (v : pyval) : bool :=
  match v with
  | PNone | PFloat FNaN => false
  | _ => true
  end.

(** ** Calendar (proleptic Gregorian, days relative to 1970-01-01) *)

Definition days_from_civil (d : date) : Z :=
  let y := year d - (if month d <=? 2 then 1 else 0) in
  let era := y / 400 in
  let yoe := y - era * 400 in
  let mp := if 2 <? month d then month d - 3 else month d + 9 in
  let doy := (153 * mp + 2) / 5 + day d - 1 in
  let doe := yoe * 365 + yoe / 4 - yoe / 100 + doy in
  era * 146097 + doe - 719468.

Definition civil_from_days (z : Z) : date :=
  let z := z + 719468 in
  let era := z / 146097 in
  let doe := z - era * 146097 in
  let yoe := (doe - doe / 1460 + doe / 36524 - doe / 146096) / 365 in
  let doy := doe - (365 * yoe + yoe / 4 - yoe / 100) in
  let mp := (5 * doy + 2) / 153 in
  let d := doy - (153 * mp + 2) / 5 + 1 in
  let m := if mp <? 10 then mp + 3 else mp - 9 in
  mk_date (yoe + era * 400 + (if m <=? 2 then 1 else 0)) m d.

Definition leap (y : Z) : bool :=
  ((y mod 4 =? 0) && negb (y mod 100 =? 0)) || (y mod 400 =? 0).

Definition days_in_month (y m : Z) : Z :=
  if m =? 2 then (if leap y then 29 else 28)
  else if (m =? 4) || (m =? 6) || (m =? 9) || (m =? 11) then 30 else 31.

Definition valid_datetime (t : datetime) : bool :=
  let d := dt_date t in
  (1 <=? month d) && (month d <=? 12) && (1 <=? day d)
  && (day d <=? days_in_month (year d) (month d))
  && (0 <=? hour t) && (hour t <=? 23) && (0 <=? minute t) && (minute t <=? 59)
  && (0 <=? second t) && (second t <=? 59).

Definition ns_per_s : Z := 10 ^ 9.

Definition to_ns (t : datetime) : Z :=
  ((days_from_civil (dt_date t) * 86400) + hour t * 3600 + minute t * 60 + second t)
  * ns_per_s.

Definition of_ns (ns : Z) : datetime :=
  let s := ns / ns_per_s in
  let sod := s mod 86400 in
  mk_datetime (civil_from_days (s / 86400)) (sod / 3600) ((sod mod 3600) / 60) (sod mod 60).

(** The range of [pd.Timestamp]: nanoseconds in a signed 64-bit integer,
    the least one being reserved for [NaT]. *)
Definition in_timestamp_range (ns : Z) : bool := (- 2 ^ 63 <? ns) && (ns <? 2 ^ 63).

Fixpoint fixed_digits (k : nat) (acc : Z) (l : list ascii) : option (Z * list ascii) :=
  match k with
  | O => Some (acc, l)
  | S k' =>
      match l with
      | c :: r =>
          match digit_val c with
          | Some d => fixed_digits k' (acc * 10 + d) r
          | None => None
          end
      | [] => None
      end
  end.

Definition expect (c : ascii) (l : list ascii) : option (list ascii) :=
  match l with
  | c' :: r => if Ascii.eqb c c' then Some r else None
  | [] => None
  end.

(** The ISO forms [YYYY-MM-DD] and [YYYY-MM-DD HH:MM:SS] (or with [T]);
    this fragment of [pd.to_datetime]'s parser rejects every other form. *)
Definition parse_iso (s : string) : option datetime :=
  let l := strip (list_ascii_of_string s) in
  match fixed_digits 4 0 l with
  | Some (y, l1) =>
  match expect "-"%char l1 with
  | Some l2 =>
  match fixed_digits 2 0 l2 with
  | Some (mo, l3) =>
  match expect "-"%char l3 with
  | Some l4 =>
  match fixed_digits 2 0 l4 with
  | Some (d, []) => Some (mk_datetime (mk_date y mo d) 0 0 0)
  | Some (d, sep :: l5) =>
      if Ascii.eqb sep " "%char || Ascii.eqb sep "T"%char then
        match fixed_digits 2 0 l5 with
        | Some (h, l6) =>
        match expect ":"%char l6 with
        | Some l7 =>
        match fixed_digits 2 0 l7 with
        | Some (mi, l8) =>
        match expect ":"%char l8 with
        | Some l9 =>
        match fixed_digits 2 0 l9 with
        | Some (sec, []) => Some (mk_datetime (mk_date y mo d) h mi sec)
        | _ => None
        end
        | None => None end
        | None => None end
        | None => None end
        | None => None end
      else None
  | None => None
  end
  | None => None end
  | None => None end
  | None => None end
  | None => None end.

Definition checked_timestamp (t : datetime) : res datetime :=
  if valid_datetime t && in_timestamp_range (to_ns t) then Ok t else Raise ValueError.

Definition trunc_decimal (m e : Z) : Z :=
  if 0 <=? e then m * 10 ^ e else Z.quot m (10 ^ (- e)).

(** [pd.to_datetime(x)] on a scalar; numbers are nanoseconds since the epoch. *)
Definition pd_to_datetime (v : pyval) : res datetime :=
  match v with
  | PDateTime t => checked_timestamp t
  | PDate d => checked_timestamp (mk_datetime d 0 0 0)
  | PInt n => if in_timestamp_range n then Ok (of_ns n) else Raise ValueError
  | PFloat (FFinite m e) =>
      let n := trunc_decimal m e in
      if in_timestamp_range n then Ok (of_ns n) else Raise ValueError
  | PFloat _ => Raise ValueError
  | PStr s =>
      match parse_iso s with
      | Some t => checked_timestamp t
      | None => Raise ValueError
      end
  | PNone | PBool _ => Raise TypeError
  end.

(** [int(x)]. *)
Definition py_int (v : pyval) : res pyval :=
  match v with
  | PInt z => Ok (PInt z)
  | PBool b => Ok (PInt (if b then 1 else 0))
  | PFloat (FFinite m e) => Ok (PInt (trunc_decimal m e))
  | PFloat (FInf _) => Raise OverflowError
  | PFloat FNaN => Raise ValueError
  | PStr s =>
      match parse_int_literal s with
      | Some z => Ok (PInt z)
      | None => Raise ValueError
      end
  | PNone | PDate _ | PDateTime _ => Raise TypeError
  end.

(** [float(x)]; an [int] beyond the double range raises [OverflowError]. *)
Definition py_float (v : pyval) : res pyval :=
  match v with
  | PInt z => if Z.abs z <? 2 ^ 1024 then Ok (PFloat (FFinite z 0)) else Raise OverflowError
  | PBool b => Ok (PFloat (FFinite (if b then 1 else 0) 0))
  | PFloat f => Ok (PFloat f)
  | PStr s =>
      match parse_float_literal s with
      | Some f => Ok (PFloat f)
      | None => Raise ValueError
      end
  | PNone | PDate _ | PDateTime _ => Raise TypeError
  end.

Definition py_str (v : pyval) : res pyval := Ok (PStr (py_str_of v)).

Definition py_bool (v : pyval) : res pyval := Ok (PBool (truthy v)).

End Py.

(** * DataTypeConverter (sync.py) *)
Module DataTypeConverter.
Import Py.

Definition converter : Type := pyval -> res pyval.

(** A Python dict as the list of its items in insertion order; its keys
    are distinct, so [d.get(k)] finds the only binding of [k]. *)
Fixpoint dict_get {A : Type} (k : string) (d : list (string * A)) : option A :=
  match d with
  | [] => None
  | (k', v) :: r => if String.eqb k k' then Some v else dict_get k r
  end.

(** [lambda x: pd.to_datetime(x).date() if pd.notna(x) else None] *)
Definition date_converter (x : pyval) : res pyval :=
  if notna x then let! t := pd_to_datetime x in Ok (PDate (dt_date t)) else Ok PNone.

(** [lambda x: pd.to_datetime(x) if pd.notna(x) else None] (DateTime and DateTime64) *)
Definition datetime_converter (x : pyval) : res pyval :=
  if notna x then let! t := pd_to_datetime x in Ok (PDateTime t) else Ok PNone.

Definition TYPE_CONVERTERS : list (string * converter) :=
  [ ("Int8", py_int); ("Int16", py_int); ("Int32", py_int); ("Int64", py_int);
    ("Int128", py_int); ("Int256", py_int);
    ("UInt8", py_int); ("UInt16", py_int); ("UInt32", py_int); ("UInt64", py_int);
    ("UInt128", py_int); ("UInt256", py_int);
    ("Float32", py_float); ("Float64", py_float); ("Decimal", py_float);
    ("String", py_str); ("FixedString", py_str); ("UUID", py_str);
    ("Date", date_converter); ("DateTime", datetime_converter);
    ("DateTime64", datetime_converter);
    ("Enum8", py_str); ("Enum16", py_str);
    ("Bool", py_bool) ]%string.

Definition zero_uuid : string := "00000000-0000-0000-0000-000000000000".

Definition DEFAULT_VALUES : list (string * pyval) :=
  [ ("Int8", PInt 0); ("Int16", PInt 0); ("Int32", PInt 0); ("Int64", PInt 0);
    ("Int128", PInt 0); ("Int256", PInt 0);
    ("UInt8", PInt 0); ("UInt16", PInt 0); ("UInt32", PInt 0); ("UInt64", PInt 0);
    ("UInt128", PInt 0); ("UInt256", PInt 0);
    ("Float32", PFloat (FFinite 0 0)); ("Float64", PFloat (FFinite 0 0));
    ("Decimal", PFloat (FFinite 0 0));
    ("String", PStr ""); ("FixedString", PStr ""); ("UUID", PStr zero_uuid);
    ("Date", PNone); ("DateTime", PNone); ("DateTime64", PNone);
    ("Enum8", PStr ""); ("Enum16", PStr "");
    ("Bool", PBool false) ]%string.

(** [self.DEFAULT_VALUES.get(target_type, None)] *)
Definition default_value (target_type : string) : pyval :=
  match dict_get target_type DEFAULT_VALUES with
  | Some v => v
  | None => PNone
  end.

(** [_convert_value]: [None] becomes the default; a type without converter
    keeps the value; a converter raising [ValueError] or [TypeError] is
    replaced by the default, any other exception propagates. *)
Definition _convert_value (value : pyval) (target_type : string) : res pyval :=
  match value with
  | PNone => Ok (default_value target_type)
  | _ =>
      match dict_get target_type TYPE_CONVERTERS with
      | None => Ok value
      | Some converter =>
          match converter value with
          | Ok v => Ok v
          | Raise ValueError | Raise TypeError => Ok (default_value target_type)
          | Raise e => Raise e
          end
      end
  end.

Definition schema : Type := list (string * string).
Definition record : Type := list (string * pyval).

(** One item of [convert_record]'s loop. *)
Definition convert_item (schema_mapping : schema) (item : string * pyval)
  : res (string * pyval) :=
  let '(column, value) := item in
  match dict_get column schema_mapping with
  | Some target_type =>
      let! converted_value := _convert_value value target_type in
      Ok (column, converted_value)
  | None => Ok (column, value)
  end.

(** [convert_record]: the items are visited in order and each key is
    assigned once in the fresh dict, so the result is the items mapped. *)
Definition convert_record (schema_mapping : schema) (r : record) : res record :=
  map_res (convert_item schema_mapping) r.

Definition convert_records (schema_mapping : schema) (records : list record)
  : res (list record) :=
  match records with
  | [] => Ok []
  | _ => map_res (convert_record schema_mapping) records
  end.

Definition get_schema_mapping : schema :=
  [ ("act_aa_id", "String"); ("task_id", "String"); ("client", "String");
    ("status12", "String"); ("createddatetime", "DateTime"); ("group", "String");
    ("company", "String"); ("position", "String"); ("job_classification", "String");
    ("email", "String"); ("dept_descr", "String"); ("div_descr", "String");
    ("liveissue", "String"); ("task_class", "String"); ("pr_ac_sort", "Int32");
    ("viewyn", "String"); ("actdatetime", "DateTime"); ("actioncode12", "String");
    ("actempl", "String"); ("assignedto", "String"); ("task_aa_id", "String");
    ("product", "String") ]%string.

(** The null defaults as the specification documents them, per class of
    destination tag (used to check the tables above against it). *)
Definition spec_int_tags : list string :=
  [ "Int8"; "Int16"; "Int32"; "Int64"; "Int128"; "Int256";
    "UInt8"; "UInt16"; "UInt32"; "UInt64"; "UInt128"; "UInt256" ]%string.
Definition spec_float_tags : list string := [ "Float32"; "Float64"; "Decimal" ]%string.
Definition spec_string_tags : list string :=
  [ "String"; "FixedString"; "Enum8"; "Enum16" ]%string.
Definition spec_date_tags : list string := [ "Date"; "DateTime"; "DateTime64" ]%string.

Definition spec_null_default (t : string) : option pyval :=
  if existsb (String.eqb t) spec_int_tags then Some (PInt 0)
  else if existsb (String.eqb t) spec_float_tags then Some (PFloat (FFinite 0 0))
  else if existsb (String.eqb t) spec_string_tags then Some (PStr "")
  else if String.eqb t "UUID" then Some (PStr zero_uuid)
  else if existsb (String.eqb t) spec_date_tags then Some PNone
  else if String.eqb t "Bool" then Some (PBool false)
  else None.

End DataTypeConverter.

(** * The databases as seen by one process *)
Module World.
Import Py.

(** Statements sent to ClickHouse. Rows are represented by their
    identifier column (the watermark column). *)
Inductive query : Type :=
| QExists                  (** [EXISTS TABLE db.table] *)
| QMax                     (** [SELECT COALESCE(MAX(id), '0') FROM db.table] *)
| QCount                   (** [SELECT COUNT( * ) FROM db.table] *)
| QAlt                     (** [SELECT id FROM db.table ORDER BY id DESC LIMIT 1] *)
| QInsert (rows : list Z). (** [INSERT INTO db.table (...) VALUES] with [rows] *)

(** Observable steps of a pass: a statement sent to ClickHouse (whether or
    not it succeeds), one [cursor.fetchmany] returning [n] rows, and one
    [convert_records] call on [n] records. *)
Inductive event : Type :=
| Exec (q : query)
| Fetch (n : nat)
| Convert (n : nat).

(** The destination table ([None] when it does not exist) and the trace. *)
Record state : Type := mk_state { table : option (list Z); trace : list event }.

Definition M (A : Type) : Type := state -> state * res A.

Definition ret {A : Type} (a : A) : M A := fun s => (s, Ok a).

Definition bind {A B : Type} (m : M A) (f : A -> M B) : M B :=
  fun s => match m s with
           | (s', Ok a) => f a s'
           | (s', Raise e) => (s', Raise e)
           end.

Definition raise {A : Type} (e : exn) : M A := fun s => (s, Raise e).

(** [try: m except Exception: h]; effects of [m] are kept. *)
Definition try_except {A : Type} (m : M A) (h : exn -> M A) : M A :=
  fun s => match m s with
           | (s', Ok a) => (s', Ok a)
           | (s', Raise e) => h e s'
           end.

Definition lift {A : Type} (r : res A) : M A := fun s => (s, r).

Definition emit (ev : event) : M unit :=
  fun s => (mk_state (table s) (trace s ++ [ev]), Ok tt).

Notation "'let*' x := m 'in' k" := (bind m (fun x => k))
  (at level 200, x name, m at level 100, k at level 200).

End World.

(** * ClickHouseConnector (sync.py) *)
Module ClickHouse.
Import Py World.

(** [COALESCE(MAX(id), ...)] over the column: ClickHouse's [MAX] of an
    empty non-nullable column is the type's zero. *)
Definition col_max (t : list Z) : Z :=
  match t with
  | [] => 0
  | x :: r => fold_left Z.max r x
  end.

(** The server's answer to a statement on the current table. *)
Definition answer (q : query) (tbl : option (list Z))
  : res (list (list Z)) * option (list Z) :=
  match q, tbl with
  | QExists, None => (Ok [[0]], tbl)
  | QExists, Some _ => (Ok [[1]], tbl)
  | _, None => (Raise DatabaseError, tbl)
  | QMax, Some t => (Ok [[col_max t]], tbl)
  | QCount, Some t => (Ok [[Z.of_nat (length t)]], tbl)
  | QAlt, Some [] => (Ok [], tbl)
  | QAlt, Some t => (Ok [[col_max t]], tbl)
  | QInsert rows, Some t => (Ok [], Some (t ++ rows))
  end.

Section Connector.
(** [fails q]: the server rejects [q] (a simulated failure). *)
Variable fails : query -> bool.

(** [ClickHouseConnector.execute]: the statement is sent; it either fails
    or is answered (and an insert appends its rows). *)
Definition execute (q : query) : M (list (list Z)) :=
  fun s =>
    let tr := trace s ++ [Exec q] in
    if fails q then (mk_state (table s) tr, Raise DatabaseError)
    else let '(r, tbl') := answer q (table s) in (mk_state tbl' tr, r).

(** [r[0][0] if r and r[0] else 0] *)
Definition first_cell (r : list (list Z)) : Z :=
  match r with
  | (x :: _) :: _ => x
  | _ => 0
  end.

(** [r[0][0] if r else 0]: an empty first row raises [IndexError]. *)
Definition head_cell (r : list (list Z)) : res Z :=
  match r with
  | [] => Ok 0
  | [] :: _ => Raise IndexError
  | (x :: _) :: _ => Ok x
  end.

(** The existence check: [Some 0] when the method returns 0 right away,
    [None] when it goes on (also when the check itself fails). *)
Definition exists_check : M (option Z) :=
  try_except
    (let* exists_result := execute QExists in
     if first_cell exists_result =? 0 then ret (Some 0) else ret None)
    (fun _ => ret None).

Definition get_last_sync_id : M Z :=
  try_except
    (let* early := exists_check in
     match early with
     | Some w => ret w
     | None =>
         try_except
           (let* result := execute QMax in ret (first_cell result))
           (fun _ =>
              try_except
                (let* test_result := execute QCount in
                 let* count := lift (head_cell test_result) in
                 if count =? 0 then ret 0
                 else
                   let* alt_result := execute QAlt in
                   ret (first_cell alt_result))
                (fun _ => ret 0))
     end)
    (fun _ => ret 0).

(** [data[i:i+n] for i in range(0, len(data), n)] *)
Fixpoint chunks_aux {A : Type} (fuel n : nat) (l : list A) : list (list A) :=
  match fuel with
  | O => []
  | S f =>
      match l with
      | [] => []
      | _ => firstn n l :: chunks_aux f n (skipn n l)
      end
  end.

Definition chunks {A : Type} (n : nat) (l : list A) : list (list A) :=
  chunks_aux (length l) n l.

Fixpoint insert_batches (batches : list (list Z)) (total_inserted : nat) : M nat :=
  match batches with
  | [] => ret total_inserted
  | batch :: r =>
      let* _ := execute (QInsert batch) in
      insert_batches r (total_inserted + length batch)
  end.

(** [insert_data]: sub-batches of 10000 rows, sent in order; the first
    failure is re-raised, the sub-batches before it stay inserted. *)
Definition insert_data (data : list Z) : M nat :=
  insert_batches (chunks 10000 data) 0.

End Connector.

(** The watermark [get_last_sync_id] resolves in a state. *)
Definition watermark (fails : query -> bool) (s : state) : Z :=
  match snd (get_last_sync_id fails s) with
  | Ok w => w
  | Raise _ => 0
  end.

End ClickHouse.

(** * One replication pass: OracleConnector.execute_query and
      OracleToClickHouseSyncer.sync (sync.py) *)
Module Syncer.
Import Py World ClickHouse.

Fixpoint insert_sorted (x : Z) (l : list Z) : list Z :=
  match l with
  | [] => [x]
  | y :: r => if x <=? y then x :: l else y :: insert_sorted x r
  end.

Fixpoint sort (l : list Z) : list Z :=
  match l with
  | [] => []
  | x :: r => insert_sorted x (sort r)
  end.

(** The result set of the source query bound to [last_id]:
    [WHERE sta.AA_ID > :last_id ... ORDER BY sta.AA_ID]. [src] holds the
    identifiers of the source rows inside the query's date window. *)
Definition result_set (src : list Z) (last_id : Z) : list Z :=
  sort (filter (fun id => last_id <? id) src).

(** What can go wrong in a pass besides ClickHouse rejecting a statement:
    the Oracle connection, the Oracle query, and [convert_records] raising
    an exception it does not catch (see [DataTypeConverter._convert_value]). *)
Record faults : Type := mk_faults {
  oracle_connect_fails : bool;
  oracle_query_fails : bool;
  conversion_raises : option exn;
  ch_fails : query -> bool }.

Definition no_faults : faults := mk_faults false false None (fun _ => false).

Section Pass.
Variable src : list Z.
Variable batch_size : nat.
Variable flt : faults.

(** The [fetchmany] loop of [execute_query]: stop on an empty chunk or on a
    chunk shorter than [batch_size]; chunks are accumulated. *)
Fixpoint fetch_loop (fuel : nat) (cursor all_rows : list Z) : M (list Z) :=
  match fuel with
  | O => ret all_rows
  | S f =>
      let rows := firstn batch_size cursor in
      let* _ := emit (Fetch (length rows)) in
      match rows with
      | [] => ret all_rows
      | _ =>
          let all_rows' := all_rows ++ rows in
          if (length rows <? batch_size)%nat then ret all_rows'
          else fetch_loop f (skipn batch_size cursor) all_rows'
      end
  end.

Definition execute_query (last_id : Z) : M (list Z) :=
  if oracle_query_fails flt then raise DatabaseError
  else
    let cursor := result_set src last_id in
    fetch_loop (S (length cursor)) cursor [].

Definition convert_records (rows : list Z) : M (list Z) :=
  let* _ := emit (Convert (length rows)) in
  match conversion_raises flt with
  | Some e => raise e
  | None => ret rows
  end.

(** [sync]: connect, resolve the watermark, query, stop when there is no
    new data, convert and insert. [self.clickhouse.connect()] only builds a
    client (a failed liveness query is logged), so it is not a step here;
    closing the Oracle connection in the [finally] clause has no effect on
    this state. *)
Definition sync : M nat :=
  if oracle_connect_fails flt then raise DatabaseError
  else
    let* last_id := get_last_sync_id (ch_fails flt) in
    let* rows := execute_query last_id in
    match rows with
    | [] => ret 0%nat
    | _ =>
        let* converted_data := convert_records rows in
        insert_data (ch_fails flt) converted_data
    end.

End Pass.

Definition count_converts (tr : list event) : nat :=
  length (filter (fun ev => match ev with Convert _ => true | _ => false end) tr).

End Syncer.

(** * The pass of syncpl.py: [sync_oracle_to_clickhouse] *)
Module Syncpl.
Import Py World ClickHouse Syncer.

Definition batch_size : nat := 5000.

Section PlPass.
Variable src : list Z.
(** The same faults as a pass of sync.py; [conversion_raises] stands for
    the polars frame construction and casts of a batch raising. *)
Variable flt : faults.

(** [result = clickhouse.execute("SELECT MAX(act_aa_id) FROM ...")];
    [last_id = result[0][0] if result[0][0] else 0]; any exception gives 0.
    No existence check is made. On the non-nullable column this [MAX] is
    answered as [QMax]. *)
Definition last_sync_id : M Z :=
  try_except
    (let* result := execute (ch_fails flt) QMax in
     match result with
     | (x :: _) :: _ => ret (if x =? 0 then 0 else x)
     | _ => raise IndexError
     end)
    (fun _ => ret 0).

(** [while True: rows = cursor.fetchmany(batch_size); if not rows: break; ...]:
    each batch is converted and inserted on its own; an insert error is
    re-raised. *)
Fixpoint fetch_batches (fuel : nat) (cursor : list Z) (total_records : nat) : M nat :=
  match fuel with
  | O => ret total_records
  | S f =>
      let rows := firstn batch_size cursor in
      let* _ := emit (Fetch (length rows)) in
      match rows with
      | [] => ret total_records
      | _ =>
          let* _ := emit (Convert (length rows)) in
          let* records := match conversion_raises flt with
                          | Some e => raise e
                          | None => ret rows
                          end in
          let* _ := execute (ch_fails flt) (QInsert records) in
          fetch_batches f (skipn batch_size cursor) (total_records + length records)
      end
  end.

(** [sync_oracle_to_clickhouse]: the ClickHouse client is built without a
    query, the last id is read, Oracle is connected and queried, and the
    batches are processed; [except Exception: return 0]. *)
Definition sync_oracle_to_clickhouse : M nat :=
  try_except
    (let* last_id := last_sync_id in
     if oracle_connect_fails flt then raise DatabaseError
     else if oracle_query_fails flt then raise DatabaseError
     else
       let cursor := result_set src last_id in
       fetch_batches (S (length cursor)) cursor 0)
    (fun _ => ret 0%nat).

End PlPass.

End Syncpl.

(** * The process entry points *)
Module Main.

(** How the process stands after the simulated prefix of its run: exited
    with a status, or still running after [passes] completed passes. *)
Inductive outcome : Type :=
| Exited (code : Z)
| Running (passes : nat).

Section SyncMain.
(** [connect_ok k]: the [k]-th call of [clickhouse_connector.connect()]
    succeeds; [pass_ok k]: the [k]-th [syncer.sync()] returns (pass 0 is
    the initial one), otherwise it raises. *)
Variable connect_ok : nat -> bool.
Variable pass_ok : nat -> bool.
(** [DOCKER_CONTAINER] in the environment at start-up. *)
Variable docker_env : option string.

(** [while retries > 0: try: connect(); break / except: retries -= 1];
    the number of retries left. *)
Fixpoint wait_for_clickhouse (retries attempt : nat) : nat :=
  match retries with
  | O => O
  | S r => if connect_ok attempt then retries else wait_for_clickhouse r (S attempt)
  end.

(** [while True: time.sleep(sync_interval); syncer.sync()]: an exception of
    [sync] leaves the loop and reaches [except Exception: sys.exit(1)]. *)
Fixpoint periodic_syncs (fuel k : nat) : outcome :=
  match fuel with
  | O => Running k
  | S f => if pass_ok k then periodic_syncs f (S k) else Exited 1
  end.

(** [main] of sync.py, run for [fuel] periodic intervals. [return] from
    [main] ends the interpreter with status 0. *)
Definition main (fuel : nat) : outcome :=
  let docker := match docker_env with
                | None => "1"%string
                | Some v => v
                end in
  let retries := wait_for_clickhouse 5 0 in
  if (retries <=? 0)%nat then Exited 0
  else if negb (pass_ok 0) then Exited 1
  else if negb (String.eqb docker "") then periodic_syncs fuel 1
  else Exited 0.

End SyncMain.

Section SyncplMain.
Variable pass_ok : nat -> bool.
Variable docker : bool.

(** [main] of syncpl.py: each pass runs inside [try/except Exception]
    (and [sync_oracle_to_clickhouse] itself returns 0 on any exception);
    the loop goes on while [DOCKER_CONTAINER] is set. *)
Fixpoint syncpl_main (fuel k : nat) : outcome :=
  match fuel with
  | O => Running k
  | S f =>
      let _ := pass_ok k in
      if docker then syncpl_main f (S k) else Exited 0
  end.

End SyncplMain.

End Main.

(** * Properties of DataTypeConverter *)
Module ConverterFacts.
Import Py DataTypeConverter.

Lemma dict_get_none {A : Type} (k : string) (d : list (string * A)) :
  dict_get k d = None <-> ~ In k (map fst d).
Proof.
  induction d as [|[k' v] r IH]; simpl.
  - tauto.
  - destruct (String.eqb_spec k k') as [->|Hne].
    + split; [discriminate | tauto].
    + rewrite IH. split; intros H; [intros [E|E]; [congruence | tauto] | tauto].
Qed.

Lemma tables_same_keys : map fst TYPE_CONVERTERS = map fst DEFAULT_VALUES.
Proof. reflexivity. Qed.

Lemma default_none_of_converter_none (t : string) :
  dict_get t TYPE_CONVERTERS = None -> dict_get t DEFAULT_VALUES = None.
Proof.
  rewrite !dict_get_none, tables_same_keys. exact (fun H => H).
Qed.

Lemma map_res_nth {A B : Type} (f : A -> res B) (l : list A) (l' : list B) i x :
  map_res f l = Ok l' -> nth_error l i = Some x ->
  exists y, f x = Ok y /\ nth_error l' i = Some y.
Proof.
  revert l' i. induction l as [|a r IH]; intros l' i Hm Hn.
  - destruct i; discriminate.
  - simpl in Hm. destruct (f a) as [y|e] eqn:Hf; [|discriminate]. simpl in Hm.
    destruct (map_res f r) as [ys|e] eqn:Hr; [|discriminate]. simpl in Hm.
    injection Hm as <-. destruct i as [|i]; simpl in Hn |- *.
    + injection Hn as <-. eauto.
    + eauto.
Qed.

Lemma map_res_cons_inv {A B : Type} (f : A -> res B) a r l' :
  map_res f (a :: r) = Ok l' ->
  exists y ys, f a = Ok y /\ map_res f r = Ok ys /\ l' = y :: ys.
Proof.
  cbn [map_res]. destruct (f a) as [y|e]; [|discriminate]. cbn [res_bind].
  destruct (map_res f r) as [ys|e]; [|discriminate]. cbn [res_bind].
  intros H. injection H as <-. eauto.
Qed.

Lemma convert_item_unmapped (sm : schema) c v :
  dict_get c sm = None -> convert_item sm (c, v) = Ok (c, v).
Proof. intros H. simpl. now rewrite H. Qed.

Lemma convert_item_key (sm : schema) c v p :
  convert_item sm (c, v) = Ok p -> fst p = c.
Proof.
  simpl. destruct (dict_get c sm) as [t|].
  - destruct (_convert_value v t); simpl; intros H; [now injection H as <- | discriminate].
  - intros H. now injection H as <-.
Qed.

(** A converter failure that [_convert_value] catches yields the default. *)
Lemma convert_value_caught v t f e :
  v <> PNone -> dict_get t TYPE_CONVERTERS = Some f -> f v = Raise e ->
  e = ValueError \/ e = TypeError ->
  _convert_value v t = Ok (default_value t).
Proof.
  intros Hv Hf Hr He. unfold _convert_value.
  destruct v; try congruence; rewrite Hf, Hr; destruct He as [-> | ->]; reflexivity.
Qed.

(** Each field of [convert_record]'s result depends only on that field. *)
Lemma convert_record_fieldwise (sm : schema) (r r' : record) i c v :
  convert_record sm r = Ok r' -> nth_error r i = Some (c, v) ->
  exists p, convert_item sm (c, v) = Ok p /\ nth_error r' i = Some p.
Proof. apply map_res_nth. Qed.

End ConverterFacts.

Module ConverterClaims.
Import Py DataTypeConverter ConverterFacts.

(** C3 (a defect): [_convert_value] catches only [ValueError] and
    [TypeError]. [int(float('inf'))] raises [OverflowError], so a record with
    an infinite [pr_ac_sort] (an [Int32] column) makes [convert_records]
    raise and the batch is aborted instead of getting the default 0. *)
Theorem convert_records_inf_int_raises :
  convert_records get_schema_mapping
    [ [("act_aa_id", PStr "101"); ("client", PStr "ACME");
       ("pr_ac_sort", PFloat (FInf false))]%string ]
  = Raise OverflowError.
Proof. vm_compute. reflexivity. Qed.

(** C4: for every tag of the converter's tables, converting [None] yields
    exactly the default the specification documents for its class: 0 for
    the integer widths, 0.0 for floats and Decimal, "" for String,
    FixedString and the enums, the zero UUID for UUID, None for the date
    types and False for Bool. *)
Theorem null_default_documented (t : string) :
  In t (map fst DEFAULT_VALUES) ->
  exists d, spec_null_default t = Some d /\ _convert_value PNone t = Ok d.
Proof.
  intros H. simpl in H.
  repeat (destruct H as [<- | H]; [eexists; split; reflexivity |]).
  contradiction.
Qed.

Lemma null_default_documented_witness :
  In "Int32"%string (map fst DEFAULT_VALUES) /\
  exists d, spec_null_default "Int32" = Some d /\ _convert_value PNone "Int32" = Ok d.
Proof.
  split.
  - simpl. tauto.
  - apply (null_default_documented "Int32"). simpl. tauto.
Defined.

(** C8 (as stated, refuted): a column outside the mapping is not turned
    into its string form: the integer 5 in an unmapped column stays the
    integer 5, not the string "5". *)
Theorem unmapped_not_stringified :
  ~ (forall (sm : schema) (r r' : record) i c v,
        convert_record sm r = Ok r' -> nth_error r i = Some (c, v) ->
        dict_get c sm = None -> nth_error r' i = Some (c, PStr (py_str_of v))).
Proof.
  intros H.
  specialize (H get_schema_mapping [("row_num", PInt 5)]%string
                [("row_num", PInt 5)]%string O "row_num"%string (PInt 5)
                eq_refl eq_refl eq_refl).
  discriminate H.
Qed.

(** C8 (amended): a column outside the mapping keeps its native value:
    looking it up in the converted record gives the original value. *)
Theorem unmapped_keeps_native_value (sm : schema) (r r' : record) (c : string) :
  convert_record sm r = Ok r' -> dict_get c sm = None ->
  dict_get c r' = dict_get c r.
Proof.
  unfold convert_record. revert r'.
  induction r as [|[k v] r IH]; intros r' Hm Hc.
  - now injection Hm as <-.
  - destruct (map_res_cons_inv _ _ _ _ Hm) as [p [ps [Hi [Hr ->]]]]. simpl.
    destruct (String.eqb_spec c k) as [->|Hne].
    + rewrite convert_item_unmapped in Hi by exact Hc. injection Hi as <-.
      simpl. now rewrite String.eqb_refl.
    + destruct p as [k' v']. pose proof (convert_item_key _ _ _ _ Hi) as Hk.
      simpl in Hk. subst k'. simpl.
      apply String.eqb_neq in Hne. rewrite Hne. now apply IH.
Qed.

Lemma unmapped_keeps_native_value_witness :
  let r := [("row_num", PInt 5); ("client", PStr "ACME")]%string in
  convert_record get_schema_mapping r = Ok r /\
  dict_get "row_num" get_schema_mapping = None /\
  dict_get "row_num" r = dict_get "row_num" r.
Proof.
  split; [reflexivity|]. split; [reflexivity|].
  apply (unmapped_keeps_native_value get_schema_mapping
           [("row_num", PInt 5); ("client", PStr "ACME")]%string
           [("row_num", PInt 5); ("client", PStr "ACME")]%string "row_num");
    reflexivity.
Defined.

(** C9: every column outside the mapping is output unchanged, at its place. *)
Theorem convert_record_unmapped_identity (sm : schema) (r r' : record) i c v :
  convert_record sm r = Ok r' -> nth_error r i = Some (c, v) ->
  dict_get c sm = None -> nth_error r' i = Some (c, v).
Proof.
  intros Hm Hn Hc.
  destruct (convert_record_fieldwise sm r r' i c v Hm Hn) as [p [Hp Hi]].
  rewrite convert_item_unmapped in Hp by exact Hc. congruence.
Qed.

Lemma convert_record_unmapped_identity_witness :
  convert_record get_schema_mapping [("client", PInt 7); ("row_num", PInt 5)]%string
    = Ok [("client", PStr "7"); ("row_num", PInt 5)]%string /\
  nth_error [("client", PInt 7); ("row_num", PInt 5)]%string 1 = Some ("row_num", PInt 5)%string /\
  dict_get "row_num" get_schema_mapping = None /\
  nth_error [("client", PStr "7"); ("row_num", PInt 5)]%string 1 = Some ("row_num", PInt 5)%string.
Proof.
  split; [vm_compute; reflexivity|]. split; [reflexivity|]. split; [reflexivity|].
  apply (convert_record_unmapped_identity get_schema_mapping
           [("client", PInt 7); ("row_num", PInt 5)]%string
           [("client", PStr "7"); ("row_num", PInt 5)]%string 1 "row_num" (PInt 5));
    [vm_compute | |]; reflexivity.
Defined.

(** C10: for a tag with no converter, a non-null value is returned as it
    is and [None] is returned for null (its default lookup finds nothing);
    no exception is raised. *)
Theorem convert_value_unknown_tag (value : pyval) (target_type : string) :
  dict_get target_type TYPE_CONVERTERS = None ->
  (value <> PNone -> _convert_value value target_type = Ok value) /\
  _convert_value PNone target_type = Ok PNone.
Proof.
  intros H. split.
  - intros Hv. unfold _convert_value. destruct value; try congruence; now rewrite H.
  - unfold _convert_value, default_value. now rewrite (default_none_of_converter_none _ H).
Qed.

Lemma convert_value_unknown_tag_witness :
  dict_get "Nullable(String)" TYPE_CONVERTERS = None /\
  (PInt 3 <> PNone -> _convert_value (PInt 3) "Nullable(String)" = Ok (PInt 3)) /\
  _convert_value PNone "Nullable(String)" = Ok PNone.
Proof.
  split; [reflexivity|].
  apply (convert_value_unknown_tag (PInt 3) "Nullable(String)"). reflexivity.
Defined.

End ConverterClaims.

(** * Properties of the destination connector and of a pass *)
Module PassFacts.
Import Py World ClickHouse Syncer.

Lemma fold_max_ge (r : list Z) (a : Z) :
  a <= fold_left Z.max r a /\ (forall x, In x r -> x <= fold_left Z.max r a).
Proof.
  revert a. induction r as [|y r IH]; intros a; simpl.
  - split; [lia | tauto].
  - destruct (IH (Z.max a y)) as [H1 H2]. split.
    + lia.
    + intros x [<- | Hx]; [lia | auto].
Qed.

Lemma col_max_ge (t : list Z) (x : Z) : In x t -> x <= col_max t.
Proof.
  destruct t as [|y r]; simpl; [tauto|].
  destruct (fold_max_ge r y) as [H1 H2]. intros [<- | Hx]; auto.
Qed.

(** ** Tables only grow: a computation only appends rows. *)
Definition appends {A : Type} (m : M A) : Prop :=
  forall s, exists ins, table (fst (m s)) = option_map (fun t => t ++ ins) (table s).

Lemma option_map_app_nil (o : option (list Z)) : o = option_map (fun t => t ++ []) o.
Proof. destruct o; simpl; [now rewrite app_nil_r | reflexivity]. Qed.

Lemma appends_ret {A : Type} (a : A) : appends (ret a).
Proof. intros s. exists []. apply option_map_app_nil. Qed.

Lemma appends_raise {A : Type} (e : exn) : appends (A := A) (raise e).
Proof. intros s. exists []. apply option_map_app_nil. Qed.

Lemma appends_lift {A : Type} (r : res A) : appends (lift r).
Proof. intros s. exists []. apply option_map_app_nil. Qed.

Lemma appends_emit ev : appends (emit ev).
Proof. intros s. exists []. apply option_map_app_nil. Qed.

Lemma appends_execute fails q : appends (execute fails q).
Proof.
  intros [tbl tr]. unfold execute. simpl. destruct (fails q).
  - exists []. apply option_map_app_nil.
  - destruct q as [| | | |rows]; destruct tbl as [t|]; simpl;
      try (exists []; apply option_map_app_nil).
    + destruct t; exists []; apply option_map_app_nil.
    + exists rows. reflexivity.
Qed.

Lemma appends_trans (o : option (list Z)) i1 i2 :
  option_map (fun t => t ++ i2) (option_map (fun t => t ++ i1) o)
  = option_map (fun t => t ++ (i1 ++ i2)) o.
Proof. destruct o; simpl; [now rewrite app_assoc | reflexivity]. Qed.

Lemma appends_bind {A B : Type} (m : M A) (f : A -> M B) :
  appends m -> (forall a, appends (f a)) -> appends (bind m f).
Proof.
  intros Hm Hf s. unfold bind. destruct (Hm s) as [i1 E1].
  destruct (m s) as [s' [a|e]] eqn:Hs; simpl in E1 |- *.
  - destruct (Hf a s') as [i2 E2]. exists (i1 ++ i2). now rewrite E2, E1, appends_trans.
  - exists i1. exact E1.
Qed.

Lemma appends_try {A : Type} (m : M A) (h : exn -> M A) :
  appends m -> (forall e, appends (h e)) -> appends (try_except m h).
Proof.
  intros Hm Hh s. unfold try_except. destruct (Hm s) as [i1 E1].
  destruct (m s) as [s' [a|e]] eqn:Hs; simpl in E1 |- *.
  - exists i1. exact E1.
  - destruct (Hh e s') as [i2 E2]. exists (i1 ++ i2). now rewrite E2, E1, appends_trans.
Qed.

Create HintDb appends_db.
#[local] Hint Resolve appends_ret appends_raise appends_lift appends_emit
  appends_execute : appends_db.

Ltac appends_step :=
  first
    [ apply appends_bind; [| intros ?]
    | apply appends_try; [| intros ?]
    | match goal with
      | |- appends (if ?b then _ else _) => destruct b
      | |- appends (match ?x with _ => _ end) => destruct x
      end
    | solve [auto with appends_db] ].

Lemma appends_get_last_sync_id fails : appends (get_last_sync_id fails).
Proof. unfold get_last_sync_id, exists_check. repeat appends_step. Qed.

Lemma appends_insert_batches fails batches total :
  appends (insert_batches fails batches total).
Proof.
  revert total. induction batches as [|b r IH]; intros total; simpl.
  - auto with appends_db.
  - apply appends_bind; auto with appends_db.
Qed.

Lemma appends_fetch_loop bs fuel cursor acc : appends (fetch_loop bs fuel cursor acc).
Proof.
  revert cursor acc. induction fuel as [|f IH]; intros cursor acc; simpl.
  - auto with appends_db.
  - apply appends_bind; [auto with appends_db | intros _].
    destruct (firstn bs cursor); [auto with appends_db|].
    destruct (_ <? _)%nat; auto with appends_db.
Qed.

(** A pass never removes rows: it appends the rows it inserts. *)
Lemma sync_appends src bs flt : appends (sync src bs flt).
Proof.
  unfold sync, execute_query, convert_records, insert_data.
  destruct (oracle_connect_fails flt); [auto with appends_db|].
  apply appends_bind; [apply appends_get_last_sync_id | intros w].
  apply appends_bind.
  - destruct (oracle_query_fails flt); [auto with appends_db | apply appends_fetch_loop].
  - intros rows. destruct rows; [auto with appends_db|].
    apply appends_bind; [repeat appends_step | intros ?; apply appends_insert_batches].
Qed.

(** ** The probes of [get_last_sync_id], case by case *)
Ltac probe_cases fails tbl :=
  destruct tbl as [[|x t]|];
  destruct (fails QExists) eqn:?, (fails QMax) eqn:?, (fails QCount) eqn:?,
           (fails QAlt) eqn:?;
  cbn.

(** With a non-empty table whose MAX probe, or COUNT and ORDER BY probes,
    succeed, the watermark is the column's maximum. *)
Lemma watermark_is_max fails tbl tr t :
  tbl = Some t -> t <> [] ->
  fails QMax = false \/ (fails QCount = false /\ fails QAlt = false) ->
  watermark fails (mk_state tbl tr) = col_max t.
Proof.
  intros -> Ht Hp. unfold watermark, get_last_sync_id, exists_check, try_except,
    bind, ret, lift, execute.
  cbn [table trace].
  destruct t as [|y r]; [congruence|].
  destruct (fails QExists), (fails QMax) eqn:E2, (fails QCount) eqn:E3,
    (fails QAlt) eqn:E4; cbn; try reflexivity;
    destruct Hp as [H | [H H']]; congruence.
Qed.

(** The pass run in the amended C7 on any result set of 2500 rows. *)
Lemma fetch_step bs f cursor acc s :
  (0 < bs)%nat -> (bs <= length cursor)%nat ->
  fetch_loop bs (S f) cursor acc s
  = fetch_loop bs f (skipn bs cursor) (acc ++ firstn bs cursor)
      (mk_state (table s) (trace s ++ [Fetch bs])).
Proof.
  intros Hb Hl. cbn [fetch_loop]. unfold bind, emit. cbv zeta.
  rewrite (length_firstn bs cursor), (Nat.min_l _ _ Hl).
  destruct (firstn bs cursor) eqn:E.
  - apply (f_equal (@length Z)) in E. rewrite length_firstn in E. simpl in E. lia.
  - rewrite <- E.
    replace (bs <? bs)%nat with false by (symmetry; apply Nat.ltb_irrefl). reflexivity.
Qed.

Lemma fetch_last bs f cursor acc s :
  (0 < length cursor < bs)%nat ->
  fetch_loop bs (S f) cursor acc s
  = (mk_state (table s) (trace s ++ [Fetch (length cursor)]), Ok (acc ++ cursor)).
Proof.
  intros [H0 H1]. cbn [fetch_loop]. unfold bind, emit. cbv zeta.
  rewrite (firstn_all2 cursor) by lia.
  destruct cursor as [|c r]; [simpl in H0; lia|].
  replace (length (c :: r) <? bs)%nat with true by (symmetry; apply Nat.ltb_lt; exact H1).
  reflexivity.
Qed.

Lemma chunks_single {A : Type} (n : nat) (rows : list A) :
  rows <> [] -> (length rows <= n)%nat -> chunks n rows = [rows].
Proof.
  intros Hne Hl. unfold chunks.
  destruct rows as [|y r]; [congruence|].
  cbn [length chunks_aux].
  rewrite (firstn_all2 (y :: r)), (skipn_all2 (y :: r)) by exact Hl.
  destruct (length r); reflexivity.
Qed.

End PassFacts.

Module PassClaims.
Import Py World ClickHouse Syncer PassFacts.

(** C5: [get_last_sync_id] never raises and follows its fallback chain:
    a missing table gives 0; a successful MAX probe gives the column's
    maximum; when MAX fails the COUNT probe runs, and a count of 0 returns 0
    with no third probe sent; a non-zero count sends the ORDER BY ... LIMIT 1
    probe; when every strategy fails the result is 0. *)
Theorem get_last_sync_id_fallback (fails : query -> bool) (tbl : option (list Z))
    (tr : list event) :
  let run := get_last_sync_id fails (mk_state tbl tr) in
  (exists w, snd run = Ok w) /\
  (tbl = None -> snd run = Ok 0) /\
  (forall t, tbl = Some t -> fails QMax = false -> snd run = Ok (col_max t)) /\
  (forall t, tbl = Some t -> fails QMax = true -> fails QCount = false -> t = [] ->
     snd run = Ok 0 /\ trace (fst run) = tr ++ [Exec QExists; Exec QMax; Exec QCount]) /\
  (forall t, tbl = Some t -> fails QMax = true -> fails QCount = false -> t <> [] ->
     trace (fst run) = tr ++ [Exec QExists; Exec QMax; Exec QCount; Exec QAlt] /\
     (fails QAlt = false -> snd run = Ok (col_max t))) /\
  (fails QMax = true -> fails QCount = true \/ fails QAlt = true -> snd run = Ok 0).
Proof.
  intros run. unfold run, get_last_sync_id, exists_check, try_except, bind, ret, lift,
    execute.
  cbn [table trace].
  probe_cases fails tbl;
    repeat split; intros;
    repeat match goal with
           | H : Some _ = Some _ |- _ => injection H as <-
           end;
    rewrite <- ?app_assoc; cbn [app];
    try (eexists; reflexivity); try reflexivity;
    intuition congruence.
Qed.

(** C1 (as stated, refuted): after a pass inserted the identifier 101,
    a resolution whose MAX and COUNT probes fail returns the zero watermark. *)
Theorem watermark_can_fall_below_inserted :
  let s1 := fst (sync [101] 1000 no_faults (mk_state (Some []) [])) in
  let fails' := fun q => match q with QMax | QCount => true | _ => false end in
  table s1 = Some ([] ++ [101]) /\ watermark fails' s1 = 0 /\
  ~ (101 <= watermark fails' s1).
Proof.
  split; [vm_compute; reflexivity|]. split; [vm_compute; reflexivity|].
  vm_compute. intros H. apply H. reflexivity.
Qed.

(** C1 (amended): if the next resolution's MAX probe succeeds, or its
    COUNT and ORDER BY probes do, the watermark is at least every
    identifier a pass inserted ([sync_appends]: a pass only appends). *)
Theorem watermark_covers_inserted (src : list Z) (bs : nat) (flt : faults)
    (t0 : list Z) (tr0 : list event) (ins : list Z) (x : Z) (fails' : query -> bool) :
  table (fst (sync src bs flt (mk_state (Some t0) tr0))) = Some (t0 ++ ins) ->
  In x ins ->
  fails' QMax = false \/ (fails' QCount = false /\ fails' QAlt = false) ->
  x <= watermark fails' (fst (sync src bs flt (mk_state (Some t0) tr0))).
Proof.
  intros Ht Hx Hp.
  destruct (fst (sync src bs flt (mk_state (Some t0) tr0))) as [tbl tr].
  simpl in Ht.
  rewrite (watermark_is_max fails' tbl tr (t0 ++ ins) Ht).
  - apply col_max_ge, in_or_app. now right.
  - intros E. apply app_eq_nil in E. destruct E as [_ ->]. contradiction.
  - exact Hp.
Qed.

Lemma watermark_covers_inserted_witness :
  table (fst (sync [101] 1000 no_faults (mk_state (Some []) []))) = Some ([] ++ [101]) /\
  In 101 [101] /\
  101 <= watermark (fun _ => false) (fst (sync [101] 1000 no_faults (mk_state (Some []) []))).
Proof.
  split; [vm_compute; reflexivity|]. split; [simpl; tauto|].
  apply (watermark_covers_inserted [101] 1000 no_faults [] [] [101] 101 (fun _ => false)).
  - vm_compute. reflexivity.
  - simpl. tauto.
  - left. reflexivity.
Defined.

Lemma execute_query_2500 (src : list Z) (w : Z) (s : state) :
  length (result_set src w) = 2500%nat ->
  execute_query src 1000 no_faults w s
  = (mk_state (table s) (trace s ++ [Fetch 1000; Fetch 1000; Fetch 500]),
     Ok (result_set src w)).
Proof.
  intros Hlen. unfold execute_query. cbn [oracle_query_fails no_faults].
  set (rows := result_set src w) in *.
  assert (L1 : length (skipn 1000 rows) = 1500%nat)
    by (rewrite length_skipn, Hlen; reflexivity).
  assert (L2 : length (skipn 1000 (skipn 1000 rows)) = 500%nat)
    by (rewrite length_skipn, L1; reflexivity).
  replace (S (length rows)) with (S (S (S 2498))) by (rewrite Hlen; reflexivity).
  rewrite (fetch_step 1000 _ rows [] s)
    by (try rewrite Hlen; first [apply Nat.ltb_lt | apply Nat.leb_le]; reflexivity).
  rewrite (fetch_step 1000 _ (skipn 1000 rows))
    by (try rewrite L1; first [apply Nat.ltb_lt | apply Nat.leb_le]; reflexivity).
  rewrite (fetch_last 1000 _ (skipn 1000 (skipn 1000 rows)))
    by (rewrite L2; split; apply Nat.ltb_lt; reflexivity).
  cbn [table trace]. rewrite L2, <- !app_assoc, app_nil_l, !firstn_skipn.
  reflexivity.
Qed.

(** C7 (as stated, refuted): a pass over 2500 new rows with batch size
    1000 converts once, not three times: fetching is batched, converting and
    inserting are not. *)
Theorem sync_2500_converts_once :
  count_converts
    (trace (fst (sync (map Z.of_nat (seq 1 2500)) 1000 no_faults (mk_state (Some []) []))))
  = 1%nat.
Proof. vm_compute. reflexivity. Qed.

(** C7 (amended): on a result set of 2500 rows with batch size 1000, a pass
    makes three fetches (1000, 1000 and 500 rows), then one conversion of
    the 2500 accumulated rows and one insert statement carrying all of them,
    and reports 2500 rows inserted. *)
Theorem sync_batches_2500 (src t0 : list Z) :
  length (result_set src (col_max t0)) = 2500%nat ->
  sync src 1000 no_faults (mk_state (Some t0) []) =
  (mk_state (Some (t0 ++ result_set src (col_max t0)))
     [Exec QExists; Exec QMax; Fetch 1000; Fetch 1000; Fetch 500; Convert 2500;
      Exec (QInsert (result_set src (col_max t0)))],
   Ok 2500%nat).
Proof.
  intros Hlen.
  assert (Hw : get_last_sync_id (fun _ => false) (mk_state (Some t0) [])
               = (mk_state (Some t0) [Exec QExists; Exec QMax], Ok (col_max t0)))
    by reflexivity.
  unfold sync. cbn [oracle_connect_fails ch_fails no_faults].
  unfold bind at 1. rewrite Hw. cbv beta iota.
  unfold bind at 1. rewrite (execute_query_2500 src (col_max t0) _ Hlen). cbv beta iota.
  cbn [table trace].
  set (rows := result_set src (col_max t0)) in *.
  assert (Hc : chunks 10000 rows = [rows]).
  { apply chunks_single.
    - intros E. rewrite E in Hlen. discriminate.
    - rewrite Hlen. apply Nat.leb_le. reflexivity. }
  destruct rows as [|r0 rs] eqn:Er; [discriminate|].
  unfold convert_records, insert_data.
  cbn [bind emit conversion_raises no_faults ret table trace].
  rewrite Hlen, Hc. cbn. simpl in Hlen. rewrite Hlen. reflexivity.
Qed.

Lemma sync_batches_2500_witness :
  length (result_set (map Z.of_nat (seq 1 2500)) (col_max [])) = 2500%nat /\
  sync (map Z.of_nat (seq 1 2500)) 1000 no_faults (mk_state (Some []) []) =
  (mk_state (Some ([] ++ result_set (map Z.of_nat (seq 1 2500)) (col_max [])))
     [Exec QExists; Exec QMax; Fetch 1000; Fetch 1000; Fetch 500; Convert 2500;
      Exec (QInsert (result_set (map Z.of_nat (seq 1 2500)) (col_max [])))],
   Ok 2500%nat).
Proof.
  split; [vm_compute; reflexivity|].
  apply (sync_batches_2500 (map Z.of_nat (seq 1 2500)) []). vm_compute. reflexivity.
Defined.

End PassClaims.

Module MainClaims.
Import Main.

(** C2 (a defect): in sync.py's [main] the periodic [syncer.sync()] is not
    wrapped in [try/except]. Once ClickHouse is reachable and the initial
    pass succeeded, a failure of the first periodic pass ends the process
    with status 1 (here in container mode). *)
Theorem periodic_failure_exits :
  main (fun _ => true) (fun k => negb (k =? 1)%nat) None 3 = Exited 1.
Proof. reflexivity. Qed.

(** The sibling loop of syncpl.py does what the specification says: with
    [DOCKER_CONTAINER] set, it keeps running whatever each pass does. *)
Lemma syncpl_main_never_exits (pass_ok : nat -> bool) (fuel k : nat) :
  syncpl_main pass_ok true fuel k = Running (fuel + k).
Proof.
  revert k. induction fuel as [|f IH]; intros k; simpl.
  - reflexivity.
  - rewrite IH. f_equal. lia.
Qed.

(** C6 (a defect): when all five connection attempts fail, [main] logs the
    failure and [return]s, so the process ends with status 0, whatever the
    later passes and the environment would be. *)
Theorem startup_exhaustion_exits_zero (pass_ok : nat -> bool) (docker_env : option string)
    (fuel : nat) :
  main (fun _ => false) pass_ok docker_env fuel = Exited 0.
Proof. reflexivity. Qed.

End MainClaims.

(** * Further properties of the code: helper lemmas *)
Module PassLemmas.
Import Py World ClickHouse Syncer PassFacts.

Lemma chunks_aux_spec {A : Type} (n fuel : nat) (l : list A) :
  (0 < n)%nat -> (length l <= fuel)%nat ->
  concat (chunks_aux fuel n l) = l /\
  Forall (fun c => c <> [] /\ (length c <= n)%nat) (chunks_aux fuel n l).
Proof.
  intros Hn. revert l. induction fuel as [|f IH]; intros l Hl.
  - destruct l; [split; [reflexivity | constructor] | simpl in Hl; lia].
  - destruct l as [|a r]; [split; [reflexivity | constructor]|].
    cbn [chunks_aux].
    destruct (IH (skipn n (a :: r))) as [H1 H2].
    { rewrite length_skipn. cbn [length] in *. lia. }
    cbn [concat]. rewrite H1, firstn_skipn. split; [reflexivity|].
    constructor; [|exact H2]. split.
    + destruct n; [lia|]. simpl. discriminate.
    + rewrite length_firstn. lia.
Qed.

Lemma insert_batches_ok batches total t tr :
  insert_batches (fun _ => false) batches total (mk_state (Some t) tr)
  = (mk_state (Some (t ++ concat batches)) (tr ++ map (fun b => Exec (QInsert b)) batches),
     Ok (total + length (concat batches))%nat).
Proof.
  revert total t tr. induction batches as [|b r IH]; intros total t tr.
  - cbn. rewrite !app_nil_r, Nat.add_0_r. reflexivity.
  - cbn [insert_batches]. unfold bind, execute. cbn. rewrite IH.
    rewrite <- !app_assoc, length_app, Nat.add_assoc. reflexivity.
Qed.

Lemma insert_batches_prefix fails batches total t tr :
  let run := insert_batches fails batches total (mk_state (Some t) tr) in
  exists k,
    table (fst run) = Some (t ++ concat (firstn k batches)) /\
    (forall j b, (j < k)%nat -> nth_error batches j = Some b -> fails (QInsert b) = false) /\
    (forall n, snd run = Ok n -> k = length batches /\ n = (total + length (concat batches))%nat) /\
    (forall e, snd run = Raise e ->
       e = DatabaseError /\ exists b, nth_error batches k = Some b /\ fails (QInsert b) = true).
Proof.
  revert total t tr. induction batches as [|b r IH]; intros total t tr; cbn zeta.
  - exists O. cbn. rewrite app_nil_r. split; [reflexivity|]. split; [intros j b H; lia|].
    split; [intros n H; injection H as <-; split; [reflexivity | lia] | discriminate].
  - cbn [insert_batches]. unfold bind, execute. cbn [table trace].
    destruct (fails (QInsert b)) eqn:Hf.
    + exists O. cbn. rewrite app_nil_r. split; [reflexivity|]. split; [intros j b' H; lia|].
      split; [discriminate|]. intros e H. injection H as <-. split; [reflexivity|]. eauto.
    + cbn. destruct (IH (total + length b)%nat (t ++ b) (tr ++ [Exec (QInsert b)]))
        as [k [H1 [H2 [H3 H4]]]].
      exists (S k). cbn [firstn concat]. rewrite app_assoc. split; [exact H1|].
      split; [|split].
      * intros [|j] b' Hj Hn; cbn in Hn; [congruence|]. apply (H2 j); [lia | exact Hn].
      * intros n Hn. destruct (H3 n Hn) as [-> ->]. cbn. rewrite length_app. split; lia.
      * intros e He. exact (H4 e He).
Qed.
Lemma fetch_loop_all bs fuel cursor acc s :
  (0 < bs)%nat -> (length cursor < fuel)%nat ->
  fetch_loop bs fuel cursor acc s
  = (mk_state (table s)
       (trace s ++ map Fetch (repeat bs (length cursor / bs) ++ [length cursor mod bs])%nat),
     Ok (acc ++ cursor)).
Proof.
  intros Hb. revert cursor acc s. induction fuel as [|f IH]; intros cursor acc s Hl; [lia|].
  destruct (Nat.lt_ge_cases (length cursor) bs) as [Hlt | Hge].
  - rewrite (Nat.div_small _ _ Hlt), (Nat.mod_small _ _ Hlt). cbn [repeat app map].
    destruct cursor as [|c r].
    + cbn. unfold bind, emit. cbn. destruct bs; [lia|]. cbn. rewrite app_nil_r. reflexivity.
    + rewrite fetch_last by (cbn [length] in *; lia). reflexivity.
  - rewrite fetch_step by lia. rewrite IH by (rewrite length_skipn; lia).
    assert (E : length cursor = (length cursor - bs + 1 * bs)%nat) by lia.
    assert (Hd : (length cursor / bs = S ((length cursor - bs) / bs))%nat).
    { rewrite E at 1. rewrite Nat.div_add by lia. lia. }
    assert (Hm : (length cursor mod bs = (length cursor - bs) mod bs)%nat).
    { rewrite E at 1. apply Nat.Div0.mod_add. }
    rewrite length_skipn, Hd, Hm. cbn [table trace repeat map app].
    rewrite <- !app_assoc, firstn_skipn. reflexivity.
Qed.
Lemma get_last_sync_id_shape fails tbl tr :
  let run := get_last_sync_id fails (mk_state tbl tr) in
  table (fst run) = tbl /\
  (exists k, (k <= 4)%nat /\
     trace (fst run) = tr ++ firstn k [Exec QExists; Exec QMax; Exec QCount; Exec QAlt]) /\
  (exists w, snd run = Ok w /\ (w = 0 \/ exists t, tbl = Some t /\ w = col_max t)).
Proof.
  intros run. unfold run, get_last_sync_id, exists_check, try_except, bind, ret, lift,
    execute.
  cbn [table trace].
  probe_cases fails tbl;
    (split; [reflexivity|]);
    (split;
     [ first [ solve [exists 1%nat; split; [lia | cbn; rewrite <- ?app_assoc; reflexivity]]
             | solve [exists 2%nat; split; [lia | cbn; rewrite <- ?app_assoc; reflexivity]]
             | solve [exists 3%nat; split; [lia | cbn; rewrite <- ?app_assoc; reflexivity]]
             | solve [exists 4%nat; split; [lia | cbn; rewrite <- ?app_assoc; reflexivity]] ]
     | eexists; split; [reflexivity|];
       first [ left; reflexivity | right; eexists; split; reflexivity ] ]).
Qed.

Lemma chunks_concat {A : Type} (n : nat) (l : list A) :
  (0 < n)%nat -> concat (chunks n l) = l.
Proof. intros Hn. apply chunks_aux_spec; [exact Hn | lia]. Qed.

Lemma ten_thousand_pos : (0 < 10000)%nat.
Proof. apply Nat.ltb_lt. reflexivity. Qed.

Lemma concat_firstn_prefix {A : Type} (k : nat) (L : list (list A)) :
  concat (firstn k L) = firstn (length (concat (firstn k L))) (concat L).
Proof.
  rewrite <- (firstn_skipn k L) at 3. rewrite concat_app, firstn_app, Nat.sub_diag,
    firstn_O, app_nil_r, firstn_all. reflexivity.
Qed.

Lemma get_last_sync_id_watermark fails s :
  get_last_sync_id fails s = (fst (get_last_sync_id fails s), Ok (watermark fails s)).
Proof.
  destruct s as [tbl tr]. destruct (get_last_sync_id_shape fails tbl tr) as [_ [_ [w [Hw _]]]].
  unfold watermark. rewrite Hw. destruct (get_last_sync_id fails (mk_state tbl tr)).
  cbn in Hw |- *. now rewrite Hw.
Qed.

Lemma execute_query_all src bs flt w s :
  (0 < bs)%nat -> oracle_query_fails flt = false ->
  execute_query src bs flt w s
  = (mk_state (table s)
       (trace s ++ map Fetch (repeat bs (length (result_set src w) / bs)
                              ++ [length (result_set src w) mod bs])%nat),
     Ok (result_set src w)).
Proof.
  intros Hb Hq. unfold execute_query. rewrite Hq. apply fetch_loop_all; [exact Hb | lia].
Qed.

(** The table and result of a pass, for any faults. *)
Lemma sync_outcome src bs flt t0 tr0 :
  let s0 := mk_state (Some t0) tr0 in
  let rs := result_set src (watermark (ch_fails flt) s0) in
  exists k,
    table (fst (sync src bs flt s0)) = Some (t0 ++ firstn k rs) /\
    (forall n, snd (sync src bs flt s0) = Ok n -> (0 < bs)%nat ->
       k = length rs /\ n = length rs).
Proof.
  intros s0 rs. remember (sync src bs flt s0) as run eqn:Hrun. unfold sync in Hrun.
  destruct (oracle_connect_fails flt).
  { exists O. subst run. cbn. rewrite app_nil_r. split; [reflexivity | discriminate]. }
  unfold bind at 1 in Hrun. rewrite get_last_sync_id_watermark in Hrun. fold rs in Hrun.
  destruct (get_last_sync_id_shape (ch_fails flt) (Some t0) tr0) as [Ht _].
  fold s0 in Ht. destruct (fst (get_last_sync_id (ch_fails flt) s0)) as [tbl1 tr1].
  cbn in Ht. subst tbl1.
  destruct (Nat.eq_dec bs 0) as [-> | Hb].
  { exists O. subst run. unfold execute_query. destruct (oracle_query_fails flt).
    - cbn. rewrite app_nil_r. split; [reflexivity | discriminate].
    - cbn. rewrite app_nil_r. split; [reflexivity|]. intros n _ H; lia. }
  unfold bind at 1 in Hrun. destruct (oracle_query_fails flt) eqn:Hq.
  { exists O. subst run. unfold execute_query. rewrite Hq. cbn. rewrite app_nil_r.
    split; [reflexivity | discriminate]. }
  rewrite execute_query_all in Hrun by (lia || exact Hq). fold rs in Hrun. cbn [table] in Hrun.
  destruct rs as [|r0 rs'] eqn:Ers.
  { exists O. subst run. cbn. rewrite ?app_nil_r. split; [reflexivity|]. intros n Hn _. injection Hn as <-. lia. }
  rewrite <- Ers in Hrun |- *. unfold convert_records, bind, emit in Hrun. cbn [table trace] in Hrun.
  destruct (conversion_raises flt) as [e|].
  { exists O. subst run. cbn. rewrite app_nil_r. split; [reflexivity | discriminate]. }
  cbn [ret] in Hrun. unfold insert_data in Hrun.
  destruct (insert_batches_prefix (ch_fails flt) (chunks 10000 rs) 0 t0
              ((tr1 ++ map Fetch (repeat bs (length rs / bs) ++ [length rs mod bs])%nat)
               ++ [Convert (length rs)])) as [k [H1 [_ [H3 _]]]].
  rewrite <- Hrun in H1, H3.
  exists (length (concat (firstn k (chunks 10000 rs)))).
  rewrite chunks_concat in H3 by exact ten_thousand_pos.
  split.
  - rewrite H1. f_equal. f_equal. rewrite concat_firstn_prefix at 1.
    rewrite chunks_concat by exact ten_thousand_pos. reflexivity.
  - intros n Hn _. destruct (H3 n Hn) as [-> ->]. rewrite firstn_all.
    rewrite chunks_concat by exact ten_thousand_pos. split; reflexivity.
Qed.

Lemma insert_sorted_in x l y : In y (insert_sorted x l) <-> y = x \/ In y l.
Proof.
  induction l as [|a l IH]; cbn; [intuition congruence|].
  destruct (x <=? a); cbn; [intuition congruence|]. rewrite IH. intuition congruence.
Qed.

Lemma sort_in l y : In y (sort l) <-> In y l.
Proof.
  induction l as [|a l IH]; cbn; [tauto|]. rewrite insert_sorted_in, IH. intuition.
Qed.

Lemma insert_sorted_sorted x l : Sorted Z.le l -> Sorted Z.le (insert_sorted x l).
Proof.
  induction l as [|a l IH]; intros H; cbn.
  - repeat constructor.
  - inversion H as [|a' l' Hl Hd]; subst.
    destruct (x <=? a) eqn:E.
    + constructor; [exact H | constructor; lia].
    + apply Z.leb_gt in E. constructor; [exact (IH Hl)|].
      destruct l as [|b l]; cbn; [constructor; lia|].
      destruct (x <=? b); constructor; [lia | now inversion Hd].
Qed.

Lemma sort_sorted l : Sorted Z.le (sort l).
Proof. induction l; cbn; [constructor | now apply insert_sorted_sorted]. Qed.

Lemma sorted_firstn (k : nat) (l : list Z) : Sorted Z.le l -> Sorted Z.le (firstn k l).
Proof.
  revert k. induction l as [|a l IH]; intros k H; destruct k as [|k]; cbn;
    [constructor | constructor | constructor |].
  inversion H as [|a' l' Hl Hd]; subst. constructor; [now apply IH|].
  destruct l, k; cbn; constructor. now inversion Hd.
Qed.

Lemma in_firstn_in {A : Type} (k : nat) (l : list A) x : In x (firstn k l) -> In x l.
Proof. intros H. rewrite <- (firstn_skipn k l). apply in_or_app. now left. Qed.

Lemma result_set_above src w x : In x (result_set src w) <-> In x src /\ w < x.
Proof.
  unfold result_set. rewrite sort_in, filter_In, Z.ltb_lt. reflexivity.
Qed.





End PassLemmas.

Module PassProperties.
Import Py World ClickHouse Syncer PassFacts PassLemmas.

(** [insert_data] splits its rows into sub-batches that, concatenated in
    order, give back the rows; none is empty and none has more than 10000
    rows. *)
Theorem insert_data_sub_batches (data : list Z) :
  concat (chunks 10000 data) = data /\
  Forall (fun c => c <> [] /\ (length c <= 10000)%nat) (chunks 10000 data).
Proof. apply chunks_aux_spec; [exact ten_thousand_pos | lia]. Qed.

(** When the server accepts every statement, [insert_data] sends one insert
    per sub-batch, in order, appends exactly the given rows to the table and
    returns their number. *)
Theorem insert_data_accepted (data t : list Z) (tr : list event) :
  insert_data (fun _ => false) data (mk_state (Some t) tr)
  = (mk_state (Some (t ++ data)) (tr ++ map (fun b => Exec (QInsert b)) (chunks 10000 data)),
     Ok (length data)).
Proof.
  unfold insert_data. rewrite insert_batches_ok, chunks_concat by exact ten_thousand_pos.
  reflexivity.
Qed.

(** For any server behaviour, [insert_data] sends sub-batches in order until
    the first rejected one: the table holds exactly the sub-batches before
    it, every one of them was accepted, a normal return means every sub-
    batch went in and the count is the number of rows, and an exception is
    the driver's error on an existing rejected sub-batch. *)
Theorem insert_data_first_rejection (fails : query -> bool) (data t : list Z)
    (tr : list event) :
  let run := insert_data fails data (mk_state (Some t) tr) in
  exists k,
    table (fst run) = Some (t ++ concat (firstn k (chunks 10000 data))) /\
    (forall j b, (j < k)%nat -> nth_error (chunks 10000 data) j = Some b ->
       fails (QInsert b) = false) /\
    (forall n, snd run = Ok n -> k = length (chunks 10000 data) /\ n = length data) /\
    (forall e, snd run = Raise e ->
       e = DatabaseError /\
       exists b, nth_error (chunks 10000 data) k = Some b /\ fails (QInsert b) = true).
Proof.
  intros run. destruct (insert_batches_prefix fails (chunks 10000 data) 0 t tr)
    as [k [H1 [H2 [H3 H4]]]].
  exists k. split; [exact H1|]. split; [exact H2|]. split; [|exact H4].
  intros n Hn. destruct (H3 n Hn) as [Hk Hn']. split; [exact Hk|].
  rewrite Hn', chunks_concat by exact ten_thousand_pos. reflexivity.
Qed.

(** With a positive batch size, [execute_query] returns the whole result set
    in order; it makes (n / batch_size) full fetches and one last fetch of
    (n mod batch_size) rows, empty when batch_size divides n, and leaves the
    destination untouched. *)
Theorem execute_query_fetches (src : list Z) (bs : nat) (flt : faults) (w : Z) (s : state) :
  (0 < bs)%nat -> oracle_query_fails flt = false ->
  execute_query src bs flt w s
  = (mk_state (table s)
       (trace s ++ map Fetch (repeat bs (length (result_set src w) / bs)
                              ++ [length (result_set src w) mod bs])%nat),
     Ok (result_set src w)).
Proof. apply execute_query_all. Qed.

Lemma execute_query_fetches_witness :
  (0 < 2)%nat /\ oracle_query_fails no_faults = false /\
  execute_query [5; 7; 9; 11] 2 no_faults 6 (mk_state (Some []) [])
  = (mk_state (table (mk_state (Some []) []))
       (trace (mk_state (Some []) []) ++
        map Fetch (repeat 2 (length (result_set [5; 7; 9; 11]%Z 6%Z) / 2)
                   ++ [length (result_set [5; 7; 9; 11]%Z 6%Z) mod 2])%nat),
     Ok (result_set [5; 7; 9; 11] 6)).
Proof.
  split; [lia|]. split; [reflexivity|].
  apply (execute_query_fetches [5; 7; 9; 11] 2 no_faults 6 (mk_state (Some []) [])).
  - lia.
  - reflexivity.
Defined.

(** [get_last_sync_id] never changes the table; it sends a prefix of the
    probes EXISTS, MAX, COUNT, ORDER BY ... LIMIT 1, in this order and each
    at most once; it returns normally, with 0 or the maximum of the table. *)
Theorem get_last_sync_id_read_only (fails : query -> bool) (tbl : option (list Z))
    (tr : list event) :
  let run := get_last_sync_id fails (mk_state tbl tr) in
  table (fst run) = tbl /\
  (exists k, (k <= 4)%nat /\
     trace (fst run) = tr ++ firstn k [Exec QExists; Exec QMax; Exec QCount; Exec QAlt]) /\
  (exists w, snd run = Ok w /\ (w = 0 \/ exists t, tbl = Some t /\ w = col_max t)).
Proof. apply get_last_sync_id_shape. Qed.

(** Whatever fails, a pass appends to the table a prefix of the result set
    of the query bound to the watermark it resolved, and nothing else. *)
Theorem sync_inserts_prefix (src : list Z) (bs : nat) (flt : faults) (t0 : list Z)
    (tr0 : list event) :
  exists k,
    table (fst (sync src bs flt (mk_state (Some t0) tr0)))
    = Some (t0 ++ firstn k (result_set src (watermark (ch_fails flt) (mk_state (Some t0) tr0)))).
Proof. destruct (sync_outcome src bs flt t0 tr0) as [k [H _]]. exists k. exact H. Qed.

(** With a positive batch size, a pass that returns normally has appended
    the whole result set of its query and returns its size. *)
Theorem sync_return_inserted_all (src : list Z) (bs : nat) (flt : faults) (t0 : list Z)
    (tr0 : list event) (n : nat) :
  (0 < bs)%nat ->
  snd (sync src bs flt (mk_state (Some t0) tr0)) = Ok n ->
  table (fst (sync src bs flt (mk_state (Some t0) tr0)))
    = Some (t0 ++ result_set src (watermark (ch_fails flt) (mk_state (Some t0) tr0))) /\
  n = length (result_set src (watermark (ch_fails flt) (mk_state (Some t0) tr0))).
Proof.
  intros Hb Hn. destruct (sync_outcome src bs flt t0 tr0) as [k [H1 H2]].
  destruct (H2 n Hn Hb) as [Hk Hn']. rewrite H1, Hk, firstn_all. split; [reflexivity | exact Hn'].
Qed.

Lemma sync_return_inserted_all_witness :
  let flt := mk_faults false false None (fun q => match q with QMax => true | _ => false end) in
  (0 < 2)%nat /\
  snd (sync [4; 1; 3] 2 flt (mk_state (Some [2]) [])) = Ok 2%nat /\
  table (fst (sync [4; 1; 3] 2 flt (mk_state (Some [2]) [])))
    = Some ([2] ++ result_set [4; 1; 3] (watermark (ch_fails flt) (mk_state (Some [2]) []))) /\
  2%nat = length (result_set [4; 1; 3] (watermark (ch_fails flt) (mk_state (Some [2]) []))).
Proof.
  intros flt. split; [lia|]. split; [vm_compute; reflexivity|].
  apply (sync_return_inserted_all [4; 1; 3] 2 flt [2] [] 2); [lia | vm_compute; reflexivity].
Defined.

(** The rows a pass appends are in ascending order of identifier and all lie
    strictly above the watermark the pass resolved. *)
Theorem sync_rows_ascending_above (src : list Z) (bs : nat) (flt : faults) (t0 : list Z)
    (tr0 : list event) (ins : list Z) :
  table (fst (sync src bs flt (mk_state (Some t0) tr0))) = Some (t0 ++ ins) ->
  Sorted Z.le ins /\
  Forall (fun x => watermark (ch_fails flt) (mk_state (Some t0) tr0) < x) ins.
Proof.
  intros Hins. destruct (sync_outcome src bs flt t0 tr0) as [k [H _]].
  rewrite H in Hins. injection Hins as Hins. apply app_inv_head in Hins. subst ins.
  split.
  - apply sorted_firstn, sort_sorted.
  - apply Forall_forall. intros x Hx. apply in_firstn_in, result_set_above in Hx. tauto.
Qed.

Lemma sync_rows_ascending_above_witness :
  table (fst (sync [9; 4; 7; 1] 1 no_faults (mk_state (Some [3]) [])))
    = Some ([3] ++ [4; 7; 9]) /\
  Sorted Z.le [4; 7; 9] /\
  Forall (fun x => watermark (ch_fails no_faults) (mk_state (Some [3]) []) < x) [4; 7; 9].
Proof.
  split; [vm_compute; reflexivity|].
  apply (sync_rows_ascending_above [9; 4; 7; 1] 1 no_faults [3] [] [4; 7; 9]).
  vm_compute. reflexivity.
Defined.





End PassProperties.

Module SyncplLemmas.
Import Py World ClickHouse Syncer PassFacts Syncpl.

Lemma batch_size_pos : (0 < batch_size)%nat.
Proof. apply Nat.ltb_lt. reflexivity. Qed.

Lemma firstn_batch_nil (cursor : list Z) : firstn batch_size cursor = [] -> cursor = [].
Proof.
  intros H. destruct cursor as [|c r]; [reflexivity|].
  pose proof batch_size_pos as Hb. destruct batch_size; [lia | discriminate].
Qed.

Lemma last_sync_id_value flt t tr :
  last_sync_id flt (mk_state (Some t) tr)
  = (mk_state (Some t) (tr ++ [Exec QMax]),
     Ok (if ch_fails flt QMax then 0 else col_max t)).
Proof.
  unfold last_sync_id, try_except, bind, execute. cbn [table trace].
  destruct (ch_fails flt QMax); cbn; [reflexivity|].
  destruct (col_max t =? 0) eqn:E; [apply Z.eqb_eq in E; now rewrite E | reflexivity].
Qed.

Lemma fetch_batches_done flt f total s :
  fetch_batches flt (S f) [] total s
  = (mk_state (table s) (trace s ++ [Fetch 0]), Ok total).
Proof.
  cbn [fetch_batches]. rewrite firstn_nil. reflexivity.
Qed.

Lemma fetch_batches_insert_step flt f cursor total t tr :
  firstn batch_size cursor <> [] -> conversion_raises flt = None ->
  ch_fails flt (QInsert (firstn batch_size cursor)) = false ->
  exists tr',
    fetch_batches flt (S f) cursor total (mk_state (Some t) tr)
    = fetch_batches flt f (skipn batch_size cursor)
        (total + length (firstn batch_size cursor))
        (mk_state (Some (t ++ firstn batch_size cursor)) tr').
Proof.
  intros Hne Hc Hf. cbn [fetch_batches]. unfold bind, emit. cbv zeta. cbn [table trace].
  destruct (firstn batch_size cursor) as [|r0 rs] eqn:E; [congruence|].
  rewrite Hc. cbn [ret]. unfold execute. cbn [table trace]. rewrite Hf.
  cbn. eexists. reflexivity.
Qed.

Lemma fetch_batches_reject_step flt f cursor total t tr :
  firstn batch_size cursor <> [] -> conversion_raises flt = None ->
  ch_fails flt (QInsert (firstn batch_size cursor)) = true ->
  table (fst (fetch_batches flt (S f) cursor total (mk_state (Some t) tr))) = Some t /\
  snd (fetch_batches flt (S f) cursor total (mk_state (Some t) tr)) = Raise DatabaseError.
Proof.
  intros Hne Hc Hf. cbn [fetch_batches]. unfold bind, emit. cbv zeta. cbn [table trace].
  destruct (firstn batch_size cursor) as [|r0 rs] eqn:E; [congruence|].
  rewrite Hc. cbn [ret]. unfold execute. cbn [table trace]. rewrite Hf.
  split; reflexivity.
Qed.

Lemma fetch_batches_outcome flt fuel cursor total t tr :
  (length cursor < fuel)%nat ->
  let run := fetch_batches flt fuel cursor total (mk_state (Some t) tr) in
  exists ins rest, cursor = ins ++ rest /\ table (fst run) = Some (t ++ ins) /\
    (forall n, snd run = Ok n -> rest = [] /\ n = (total + length cursor)%nat).
Proof.
  revert cursor total t tr. induction fuel as [|f IH]; intros cursor total t tr Hl run;
    [lia|].
  destruct cursor as [|c r].
  { exists [], []. unfold run. rewrite fetch_batches_done. cbn. rewrite app_nil_r.
    split; [reflexivity|]. split; [reflexivity|].
    intros n Hn. injection Hn as <-. split; [reflexivity | lia]. }
  assert (Hne : firstn batch_size (c :: r) <> []).
  { intros E. apply firstn_batch_nil in E. discriminate. }
  destruct (conversion_raises flt) as [e|] eqn:Hc.
  { exists [], (c :: r). unfold run. cbn [fetch_batches]. unfold bind, emit. cbv zeta.
    cbn [table trace].
    destruct (firstn batch_size (c :: r)) as [|r0 rs] eqn:E; [congruence|].
    rewrite Hc. cbn. rewrite app_nil_r. split; [reflexivity|]. split; [reflexivity|].
    discriminate. }
  destruct (ch_fails flt (QInsert (firstn batch_size (c :: r)))) eqn:Hf.
  { exists [], (c :: r).
    destruct (fetch_batches_reject_step flt f (c :: r) total t tr Hne Hc Hf) as [H1 H2].
    unfold run. rewrite H1, H2, app_nil_r. split; [reflexivity|]. split; [reflexivity|].
    discriminate. }
  destruct (fetch_batches_insert_step flt f (c :: r) total t tr Hne Hc Hf) as [tr' E].
  unfold run. rewrite E.
  destruct (IH (skipn batch_size (c :: r)) (total + length (firstn batch_size (c :: r)))%nat
              (t ++ firstn batch_size (c :: r)) tr') as [ins [rest [H1 [H2 H3]]]].
  { rewrite length_skipn. pose proof batch_size_pos. cbn [length] in *. lia. }
  exists (firstn batch_size (c :: r) ++ ins), rest.
  split; [rewrite <- app_assoc, <- H1, firstn_skipn; reflexivity|].
  split; [rewrite H2, app_assoc; reflexivity|].
  intros n Hn. destruct (H3 n Hn) as [-> ->]. split; [reflexivity|].
  rewrite <- (firstn_skipn batch_size (c :: r)) at 3. rewrite length_app. lia.
Qed.


End SyncplLemmas.

Module SyncplProperties.
Import Py World ClickHouse Syncer PassFacts Syncpl SyncplLemmas.

(** The pass of syncpl.py never raises: it appends a prefix of its result
    set and returns either the size of the whole result set (everything
    inserted) or 0. *)
Theorem syncpl_never_raises (src : list Z) (flt : faults) (t : list Z) (tr : list event) :
  let w := if ch_fails flt QMax then 0 else col_max t in
  let run := sync_oracle_to_clickhouse src flt (mk_state (Some t) tr) in
  exists ins rest,
    result_set src w = ins ++ rest /\ table (fst run) = Some (t ++ ins) /\
    ((rest = [] /\ snd run = Ok (length ins)) \/ snd run = Ok 0%nat).
Proof.
  intros w run. unfold run, sync_oracle_to_clickhouse, try_except.
  unfold bind. rewrite last_sync_id_value. fold w. cbv beta iota.
  destruct (oracle_connect_fails flt).
  { exists [], (result_set src w). cbn. rewrite app_nil_r. split; [reflexivity|]. split; [reflexivity|]. right; reflexivity. }
  destruct (oracle_query_fails flt).
  { exists [], (result_set src w). cbn. rewrite app_nil_r. split; [reflexivity|]. split; [reflexivity|]. right; reflexivity. }
  destruct (fetch_batches_outcome flt (S (length (result_set src w))) (result_set src w) 0
              t (tr ++ [Exec QMax]) (Nat.lt_succ_diag_r _)) as [ins [rest [H1 [H2 H3]]]].
  destruct (fetch_batches flt (S (length (result_set src w))) (result_set src w) 0
              (mk_state (Some t) (tr ++ [Exec QMax]))) as [s' [n|e]].
  - exists ins, rest. split; [exact H1|]. split; [exact H2|]. left.
    destruct (H3 n eq_refl) as [-> ->]. rewrite H1, app_nil_r. split; reflexivity.
  - exists ins, rest. split; [exact H1|]. split; [exact H2|]. right. reflexivity.
Qed.


(** In syncpl.py, when the insert of the second batch of 5000 rows is
    rejected after the first one went in, the function returns 0 although
    5000 rows were inserted. *)
Theorem syncpl_partial_insert_reports_zero (src : list Z) (flt : faults) (t : list Z)
    (tr : list event) :
  oracle_connect_fails flt = false -> oracle_query_fails flt = false ->
  conversion_raises flt = None ->
  let rs := result_set src (if ch_fails flt QMax then 0 else col_max t) in
  (batch_size < length rs)%nat ->
  ch_fails flt (QInsert (firstn batch_size rs)) = false ->
  ch_fails flt (QInsert (firstn batch_size (skipn batch_size rs))) = true ->
  let run := sync_oracle_to_clickhouse src flt (mk_state (Some t) tr) in
  table (fst run) = Some (t ++ firstn batch_size rs) /\ snd run = Ok 0%nat.
Proof.
  intros Hcon Hq Hc rs Hlen Hf1 Hf2 run.
  unfold run, sync_oracle_to_clickhouse, try_except.
  unfold bind. rewrite last_sync_id_value. fold rs. cbv beta iota.
  rewrite Hcon, Hq.
  assert (Hne1 : firstn batch_size rs <> []).
  { intros E. apply firstn_batch_nil in E. rewrite E in Hlen. cbn in Hlen. lia. }
  destruct (fetch_batches_insert_step flt (length rs) rs 0 t (tr ++ [Exec QMax]) Hne1 Hc Hf1)
    as [tr' ->].
  assert (Hne2 : firstn batch_size (skipn batch_size rs) <> []).
  { intros E. apply firstn_batch_nil, (f_equal (@length Z)) in E.
    rewrite length_skipn in E. cbn in E. lia. }
  destruct (length rs) as [|f] eqn:El; [lia|].
  destruct (fetch_batches_reject_step flt f (skipn batch_size rs)
              (0 + length (firstn batch_size rs)) (t ++ firstn batch_size rs) tr' Hne2 Hc Hf2)
    as [H1 H2].
  destruct (fetch_batches flt (S f) (skipn batch_size rs) (0 + length (firstn batch_size rs))
              (mk_state (Some (t ++ firstn batch_size rs)) tr')) as [s' r'].
  cbn in H1, H2. subst r'. cbn. split; [exact H1 | reflexivity].
Qed.

Lemma syncpl_partial_insert_reports_zero_witness :
  let flt := mk_faults false false None
               (fun q => match q with QInsert r => (length r =? 1)%nat | _ => false end) in
  table (fst (sync_oracle_to_clickhouse (map Z.of_nat (seq 1 5001)) flt (mk_state (Some []) [])))
    = Some ([] ++ firstn batch_size
                    (result_set (map Z.of_nat (seq 1 5001))
                       (if ch_fails flt QMax then 0 else col_max []))) /\
  snd (sync_oracle_to_clickhouse (map Z.of_nat (seq 1 5001)) flt (mk_state (Some []) []))
    = Ok 0%nat.
Proof.
  intros flt.
  apply (syncpl_partial_insert_reports_zero (map Z.of_nat (seq 1 5001)) flt [] []);
    [ reflexivity | reflexivity | reflexivity
    | apply Nat.ltb_lt; vm_compute; reflexivity
    | vm_compute; reflexivity | vm_compute; reflexivity ].
Defined.

End SyncplProperties.

Module ConverterLemmas.
Import Py DataTypeConverter ConverterFacts.

Lemma converter_of_tag t c :
  dict_get t TYPE_CONVERTERS = Some c ->
  (c = py_int /\ existsb (String.eqb t) spec_int_tags = true) \/
  (c = py_float /\ existsb (String.eqb t) spec_float_tags = true) \/
  c = py_str \/ c = py_bool \/ c = date_converter \/ c = datetime_converter.
Proof.
  intros H. unfold TYPE_CONVERTERS in H. cbn [dict_get] in H.
  repeat match type of H with
         | (if String.eqb t ?k then _ else _) = _ =>
             destruct (String.eqb_spec t k) as [->|_];
             [injection H as <-;
              first [ left; split; reflexivity
                    | right; left; split; reflexivity
                    | do 2 right; left; reflexivity
                    | do 3 right; left; reflexivity
                    | do 4 right; left; reflexivity
                    | do 5 right; reflexivity ] |]
         end.
  discriminate.
Qed.

Lemma pd_to_datetime_raises v e : pd_to_datetime v = Raise e -> e = ValueError \/ e = TypeError.
Proof.
  unfold pd_to_datetime, checked_timestamp.
  destruct v as [| z | [m ex| |] | s | b | d | t]; try (intros H; injection H as <-; tauto);
    repeat match goal with
           | |- context [if ?b then _ else _] => destruct b
           | |- context [match parse_iso ?s with _ => _ end] => destruct (parse_iso s)
           end;
    intros H; solve [discriminate | injection H as <-; tauto].
Qed.

Lemma converter_raises t c v e :
  dict_get t TYPE_CONVERTERS = Some c -> c v = Raise e ->
  (e = OverflowError /\ (In t spec_int_tags \/ In t spec_float_tags)) \/
  e = ValueError \/ e = TypeError.
Proof.
  intros Ht Hc. destruct (converter_of_tag t c Ht) as
    [[-> Hi] | [[-> Hi] | [-> | [-> | [-> | ->]]]]].
  - apply existsb_exists in Hi. destruct Hi as [x [Hx Ex]]. apply String.eqb_eq in Ex. subst x.
    unfold py_int in Hc.
    destruct v as [| z | [m ex| |] | s | b | d | tt]; try discriminate;
      try (injection Hc as <-; tauto).
    destruct (parse_int_literal s); [discriminate | injection Hc as <-; tauto].
  - apply existsb_exists in Hi. destruct Hi as [x [Hx Ex]]. apply String.eqb_eq in Ex. subst x.
    unfold py_float in Hc.
    destruct v as [| z | f | s | b | d | tt]; try discriminate;
      try (injection Hc as <-; tauto).
    + destruct (Z.abs z <? 2 ^ 1024); [discriminate | injection Hc as <-; tauto].
    + destruct (parse_float_literal s); [discriminate | injection Hc as <-; tauto].
  - discriminate.
  - discriminate.
  - unfold date_converter in Hc. destruct (notna v); [|discriminate].
    destruct (pd_to_datetime v) eqn:Hp; [discriminate|]. injection Hc as <-.
    right. now apply pd_to_datetime_raises in Hp.
  - unfold datetime_converter in Hc. destruct (notna v); [|discriminate].
    destruct (pd_to_datetime v) eqn:Hp; [discriminate|]. injection Hc as <-.
    right. now apply pd_to_datetime_raises in Hp.
Qed.

Lemma map_res_map {A B C : Type} (f : A -> res B) (g : B -> C) (h : A -> C) l l' :
  (forall x y, f x = Ok y -> g y = h x) -> map_res f l = Ok l' -> map g l' = map h l.
Proof.
  intros Hf. revert l'. induction l as [|a l IH]; intros l' Hm.
  - now injection Hm as <-.
  - destruct (map_res_cons_inv _ _ _ _ Hm) as [y [ys [Hy [Hys ->]]]].
    cbn. rewrite (Hf _ _ Hy), (IH _ Hys). reflexivity.
Qed.






End ConverterLemmas.

Module ConverterProperties.
Import Py DataTypeConverter ConverterFacts ConverterLemmas.

(** The only exception [_convert_value] lets through is [OverflowError], and
    only for the integer and float tags; String, UUID, enum, Bool and date
    columns never raise. *)
Theorem convert_value_raises_only_overflow (value : pyval) (target_type : string) (e : exn) :
  _convert_value value target_type = Raise e ->
  e = OverflowError /\ (In target_type spec_int_tags \/ In target_type spec_float_tags).
Proof.
  unfold _convert_value. intros H.
  destruct value; try discriminate;
    (destruct (dict_get target_type TYPE_CONVERTERS) as [c|] eqn:Hd; [|discriminate]);
    match type of H with
    | match ?cv with _ => _ end = _ =>
        destruct cv as [v|e'] eqn:Hc; [discriminate|];
        destruct (converter_raises _ _ _ _ Hd Hc) as [[-> Ht] | [-> | ->]];
        [injection H as <-; tauto | discriminate | discriminate]
    end.
Qed.

Lemma convert_value_raises_only_overflow_witness :
  _convert_value (PFloat (FInf true)) "UInt64" = Raise OverflowError /\
  OverflowError = OverflowError /\
  (In "UInt64"%string spec_int_tags \/ In "UInt64"%string spec_float_tags).
Proof.
  split; [reflexivity|].
  apply (convert_value_raises_only_overflow (PFloat (FInf true)) "UInt64" OverflowError).
  reflexivity.
Defined.

(** [convert_records] keeps the number of records and, in each record, the
    column names and their order. *)
Theorem convert_records_keeps_columns (schema_mapping : schema) (records records' : list record) :
  convert_records schema_mapping records = Ok records' ->
  map (map fst) records' = map (map fst) records.
Proof.
  intros H. destruct records as [|r rs].
  - now injection H as <-.
  - unfold convert_records in H.
    refine (map_res_map _ _ _ _ _ _ H). intros x y Hxy.
    unfold convert_record in Hxy.
    refine (map_res_map _ fst fst _ _ _ Hxy). intros [c v] q Hq.
    exact (convert_item_key _ _ _ _ Hq).
Qed.

Lemma convert_records_keeps_columns_witness :
  convert_records get_schema_mapping
    [ [("act_aa_id", PInt 7); ("pr_ac_sort", PStr "x"); ("row_num", PInt 1)]%string ]
  = Ok [ [("act_aa_id", PStr "7"); ("pr_ac_sort", PInt 0); ("row_num", PInt 1)]%string ] /\
  map (map fst) [ [("act_aa_id", PStr "7"); ("pr_ac_sort", PInt 0); ("row_num", PInt 1)]%string ]
  = map (map fst) [ [("act_aa_id", PInt 7); ("pr_ac_sort", PStr "x"); ("row_num", PInt 1)]%string ].
Proof.
  split; [vm_compute; reflexivity|].
  apply (convert_records_keeps_columns get_schema_mapping
           [ [("act_aa_id", PInt 7); ("pr_ac_sort", PStr "x"); ("row_num", PInt 1)]%string ]).
  vm_compute. reflexivity.
Defined.



End ConverterProperties.

Module MainLemmas.
Import Main.

Lemma wait_for_clickhouse_pos connect_ok r a :
  (exists k, (a <= k < a + r)%nat /\ connect_ok k = true) ->
  (0 < wait_for_clickhouse connect_ok r a)%nat.
Proof.
  revert a. induction r as [|r IH]; intros a [k [Hk Hc]]; [lia|].
  cbn. destruct (connect_ok a) eqn:Ea; [lia|].
  apply IH. exists k. split; [|exact Hc].
  destruct (Nat.eq_dec k a) as [->|]; [congruence | lia].
Qed.


End MainLemmas.

Module MainProperties.
Import Main MainLemmas.

(** If the first five connection attempts fail, [main] exits with status 0,
    whatever a later attempt would do: no sixth attempt is made. *)
Theorem main_gives_up_after_five (connect_ok pass_ok : nat -> bool)
    (docker_env : option string) (fuel : nat) :
  (forall k, (k < 5)%nat -> connect_ok k = false) ->
  main connect_ok pass_ok docker_env fuel = Exited 0.
Proof.
  intros H. unfold main. cbn [wait_for_clickhouse].
  rewrite (H 0%nat), (H 1%nat), (H 2%nat), (H 3%nat), (H 4%nat) by lia. reflexivity.
Qed.

Lemma main_gives_up_after_five_witness :
  main (fun k => (5 <=? k)%nat) (fun _ => true) None 4 = Exited 0.
Proof.
  apply (main_gives_up_after_five (fun k => (5 <=? k)%nat) (fun _ => true) None 4).
  intros k Hk. apply Nat.leb_gt. exact Hk.
Defined.



(** With DOCKER_CONTAINER set to the empty string, [main] runs the initial
    pass only and exits with status 0 when it succeeds, 1 when it raises. *)
Theorem main_one_shot_mode (connect_ok pass_ok : nat -> bool) (fuel : nat) :
  (exists k, (k < 5)%nat /\ connect_ok k = true) ->
  main connect_ok pass_ok (Some ""%string) fuel
  = if pass_ok 0%nat then Exited 0 else Exited 1.
Proof.
  intros Hc. unfold main.
  assert (Hw : (0 < wait_for_clickhouse connect_ok 5 0)%nat).
  { apply wait_for_clickhouse_pos. destruct Hc as [k [Hk Hck]]. exists k. split; [lia | exact Hck]. }
  destruct (wait_for_clickhouse connect_ok 5 0) as [|r]; [lia|]. cbn.
  destruct (pass_ok 0%nat); reflexivity.
Qed.

Lemma main_one_shot_mode_witness :
  main (fun k => (4 <=? k)%nat) (fun _ => true) (Some ""%string) 7 = Exited 0.
Proof.
  apply (main_one_shot_mode (fun k => (4 <=? k)%nat) (fun _ => true) 7).
  exists 4%nat. split; [lia | reflexivity].
Defined.


End MainProperties.
